(** * mediapipe-touchdesigner: the per-frame orchestration loop of [src/main.js]

    A shallow embedding of [main.js]: the shared singleton state objects
    become one [World] record, browser and library calls become events
    appended to a trace, and the [async] function [predictWebcam] becomes a
    resumable computation that stops at every [await]. *)

From stdpp Require Import gmap strings list pretty.

Set Warnings "-register-all".

Local Open Scope Z_scope.

(** ** JavaScript values *)

(** Result objects of the vision library and adapter instances are opaque
    to [main.js]; each is identified by a handle. *)
Definition Result := nat.
Definition Adapter := nat.

(** The values [main.js] handles: what [JSON.parse] can return, [undefined]
    (a missing property), and result objects.  Numbers are the integers
    (pixel sizes, milliseconds); objects are property lists in
    [Object.entries] order. *)
Inductive Value : Type :=
| VUndefined
| VNull
| VBool (b : bool)
| VNum (n : Z)
| VStr (s : string)
| VResult (r : Result)
| VArr (items : list Value)
| VObj (fields : list (string * Value)).

Fixpoint obj_get (fields : list (string * Value)) (k : string) : Value :=
  match fields with
  | [] => VUndefined
  | (k', v) :: rest => if String.eqb k' k then v else obj_get rest k
  end.

Fixpoint obj_has (fields : list (string * Value)) (k : string) : bool :=
  match fields with
  | [] => false
  | (k', _) :: rest => String.eqb k' k || obj_has rest k
  end.

(** Property definition in an object literal: a repeated key keeps its
    place and takes the later value. *)
Fixpoint obj_set (fields : list (string * Value)) (k : string) (v : Value)
  : list (string * Value) :=
  match fields with
  | [] => [(k, v)]
  | (k', v') :: rest =>
      if String.eqb k' k then (k', v) :: rest else (k', v') :: obj_set rest k v
  end.

(** [data.type] and [data.deviceId]: [None] is the TypeError of reading a
    property of [null] or [undefined]; any other value without the property
    gives [undefined]. *)
Definition get_prop (data : Value) (k : string) : option Value :=
  match data with
  | VUndefined | VNull => None
  | VObj fields => Some (obj_get fields k)
  | _ => Some VUndefined
  end.

(** String conversion as [+] and [Array.prototype.join] apply it.  [None]
    is the TypeError raised for an object whose own [toString] property
    shadows the inherited method (no parsed value is callable).  A number
    is printed digit by digit, as JavaScript prints the integers below
    10^21 in magnitude; the text only reaches the console. *)
Fixpoint to_string (v : Value) : option string :=
  match v with
  | VUndefined => Some "undefined"
  | VNull => Some "null"
  | VBool b => Some (if b then "true" else "false")
  | VNum n => Some (pretty n)
  | VStr s => Some s
  | VResult _ => Some "[object Object]"
  | VObj fields => if obj_has fields "toString" then None else Some "[object Object]"
  | VArr items =>
      (fix join (l : list Value) : option string :=
         match l with
         | [] => Some ""
         | x :: rest =>
             let sx := match x with
                       | VUndefined | VNull => Some ""
                       | _ => to_string x
                       end in
             match rest with
             | [] => sx
             | _ :: _ =>
                 match sx, join rest with
                 | Some a, Some b => Some (a +:+ "," +:+ b)
                 | _, _ => None
                 end
             end
         end) items
  end.

(** [v == "selectWebcam"]: strings compare by content, numbers and booleans
    compare with the number the literal converts to (NaN, never equal),
    [null] and [undefined] equal only each other, arrays and objects are
    first converted to a string. *)
Definition loose_eq_selectWebcam (v : Value) : option bool :=
  match v with
  | VStr s => Some (String.eqb s "selectWebcam")
  | VUndefined | VNull | VBool _ | VNum _ => Some false
  | VResult _ | VArr _ | VObj _ =>
      match to_string v with
      | Some s => Some (String.eqb s "selectWebcam")
      | None => None
      end
  end.

(** [Object.entries(data)] *)
Fixpoint index_entries (i : nat) (items : list Value) : list (string * Value) :=
  match items with
  | [] => []
  | x :: rest => (pretty i, x) :: index_entries (S i) rest
  end.

Fixpoint char_values (s : string) : list Value :=
  match s with
  | EmptyString => []
  | String c rest => VStr (String c EmptyString) :: char_values rest
  end.

Definition Object_entries (data : Value) : list (string * Value) :=
  match data with
  | VObj fields => fields
  | VArr items => index_entries 0 items
  | VStr s => index_entries 0 (char_values s)
  | _ => []
  end.

(** ** The state objects of [state.js], as [main.js] uses them *)

Inductive ModelId : Type :=
| FaceLandmark | FaceDetector | Hand | Gesture | Pose | Object.

Global Instance ModelId_eq_dec : EqDecision ModelId.
Proof. solve_decision. Defined.

Record ModelState : Type := {
  detect : bool;
  landmarker : option Adapter;
  results : option Result;
  resultsName : string
}.

Record DeviceInfo : Type := { deviceId : string; label : string }.

Record WebcamState : Type := {
  webcamId : Value;
  webcamDevices : list DeviceInfo;
  webcamRunning : bool;
  lastVideoTime : Z
}.

(** The video element.  [currentTime] is only ever compared for equality
    with [lastVideoTime]; it is a number of time units and never NaN. *)
Record Video : Type := {
  videoWidth : Z;
  videoHeight : Z;
  currentTime : Z
}.

(** [canvasElement] and [objectsDiv]: the four size properties assigned on
    every frame; the two of [style] are lengths in pixels. *)
Record Surface : Type := {
  style_width : Z;
  style_height : Z;
  width : Z;
  height : Z
}.

(** [socketState.ws], created by [setupWebSocket] before the first frame.
    [readyState] is 0 (connecting), 1 (open), 2 (closing) or 3 (closed). *)
Record WebSocket : Type := { readyState : Z }.

Definition OPEN : Z := 1.

Inductive EntryPoint : Type := detectForVideo | recognizeForVideo.

Record Constraints : Type := {
  c_deviceId : Value;
  c_height_exact : Z;
  c_frameRate_ideal : Z;
  c_frameRate_min : Z
}.

(** Calls that leave [main.js]. *)
Inductive Event : Type :=
| EConsoleLog (args : list Value)
| EDetect (m : ModelId) (marker : Adapter) (entry : EntryPoint) (timestamp : Z)
| EWsSend (data : Value)
| EDraw (m : ModelId) (r : Result)
| EObjectDraw
| ERequestAnimationFrame
| EGetUserMedia (c : Constraints).

(** All module-level state, the two clocks, and the calls made so far. *)
Record World : Type := {
  models : ModelId -> ModelState;
  webcamState : WebcamState;
  overlayState_show : bool;
  socketState_ws : WebSocket;
  video : Video;
  canvasElement : Surface;
  objectsDiv : Surface;
  Date_now : Z;
  performance_now : Z;
  trace : list Event
}.

Definition set_models (f : ModelId -> ModelState) (w : World) : World :=
  {| models := f; webcamState := webcamState w;
     overlayState_show := overlayState_show w; socketState_ws := socketState_ws w;
     video := video w; canvasElement := canvasElement w; objectsDiv := objectsDiv w;
     Date_now := Date_now w; performance_now := performance_now w;
     trace := trace w |}.

Definition set_webcamState (s : WebcamState) (w : World) : World :=
  {| models := models w; webcamState := s;
     overlayState_show := overlayState_show w; socketState_ws := socketState_ws w;
     video := video w; canvasElement := canvasElement w; objectsDiv := objectsDiv w;
     Date_now := Date_now w; performance_now := performance_now w;
     trace := trace w |}.

Definition set_surfaces (c o : Surface) (w : World) : World :=
  {| models := models w; webcamState := webcamState w;
     overlayState_show := overlayState_show w; socketState_ws := socketState_ws w;
     video := video w; canvasElement := c; objectsDiv := o;
     Date_now := Date_now w; performance_now := performance_now w;
     trace := trace w |}.

Definition set_clocks (d p : Z) (w : World) : World :=
  {| models := models w; webcamState := webcamState w;
     overlayState_show := overlayState_show w; socketState_ws := socketState_ws w;
     video := video w; canvasElement := canvasElement w; objectsDiv := objectsDiv w;
     Date_now := d; performance_now := p;
     trace := trace w |}.

Definition set_trace (t : list Event) (w : World) : World :=
  {| models := models w; webcamState := webcamState w;
     overlayState_show := overlayState_show w; socketState_ws := socketState_ws w;
     video := video w; canvasElement := canvasElement w; objectsDiv := objectsDiv w;
     Date_now := Date_now w; performance_now := performance_now w;
     trace := t |}.

Definition set_socket (ws : WebSocket) (w : World) : World :=
  {| models := models w; webcamState := webcamState w;
     overlayState_show := overlayState_show w; socketState_ws := ws;
     video := video w; canvasElement := canvasElement w; objectsDiv := objectsDiv w;
     Date_now := Date_now w; performance_now := performance_now w;
     trace := trace w |}.

Definition set_video (v : Video) (w : World) : World :=
  {| models := models w; webcamState := webcamState w;
     overlayState_show := overlayState_show w; socketState_ws := socketState_ws w;
     video := v; canvasElement := canvasElement w; objectsDiv := objectsDiv w;
     Date_now := Date_now w; performance_now := performance_now w;
     trace := trace w |}.

Definition set_overlayState_show (b : bool) (w : World) : World :=
  {| models := models w; webcamState := webcamState w;
     overlayState_show := b; socketState_ws := socketState_ws w;
     video := video w; canvasElement := canvasElement w; objectsDiv := objectsDiv w;
     Date_now := Date_now w; performance_now := performance_now w;
     trace := trace w |}.

Definition emit (e : Event) (w : World) : World := set_trace (trace w ++ [e]) w.

Definition set_results (m : ModelId) (r : option Result) (w : World) : World :=
  set_models
    (fun m' =>
       if decide (m' = m)
       then {| detect := detect (models w m); landmarker := landmarker (models w m);
               results := r; resultsName := resultsName (models w m) |}
       else models w m')
    w.

Definition set_lastVideoTime (t : Z) (w : World) : World :=
  set_webcamState
    {| webcamId := webcamId (webcamState w); webcamDevices := webcamDevices (webcamState w);
       webcamRunning := webcamRunning (webcamState w); lastVideoTime := t |}
    w.

Definition set_webcamId (id : Value) (w : World) : World :=
  set_webcamState
    {| webcamId := id; webcamDevices := webcamDevices (webcamState w);
       webcamRunning := webcamRunning (webcamState w);
       lastVideoTime := lastVideoTime (webcamState w) |}
    w.

Definition set_webcamRunning (b : bool) (w : World) : World :=
  set_webcamState
    {| webcamId := webcamId (webcamState w); webcamDevices := webcamDevices (webcamState w);
       webcamRunning := b; lastVideoTime := lastVideoTime (webcamState w) |}
    w.

(** [let allModelState = [...]] and [let landmarkerModelState = [...]]: both
    arrays hold references to the same state objects. *)
Definition allModelState : list ModelId := [FaceLandmark; Hand; Gesture; Pose; Object].
Definition landmarkerModelState : list ModelId := [FaceLandmark; Hand; Gesture; Pose].

(** ** [checkDeviceIds] and [safeSocketSend] *)

(** [deviceIds[i].deviceId === key]: a device id is a string, so strict
    equality holds for an equal string only. *)
Definition strict_eq_string (s : string) (key : Value) : bool :=
  match key with
  | VStr s' => String.eqb s s'
  | _ => false
  end.

Fixpoint checkDeviceIds (key : Value) (deviceIds : list DeviceInfo) : bool :=
  match deviceIds with
  | [] => false
  | d :: rest =>
      if strict_eq_string (deviceId d) key then true else checkDeviceIds key rest
  end.

Definition safeSocketSend (ws : WebSocket) (data : Value) (w : World) : World :=
  if readyState ws =? OPEN then emit (EWsSend data) w else w.

(** ** [predictWebcam] *)

(** The locals of one invocation that live across its [await]s. *)
Record Frame : Type := {
  startDetect : Z;
  startTimeMs : Z;
  objectState : ModelId
}.

(** An invocation stopped at an [await]: the model whose detection call is
    pending and the registry entries the [for] loop has not reached. *)
Record Suspended : Type := {
  s_frame : Frame;
  s_pending : ModelId;
  s_rest : list ModelId
}.

Definition entry_point (st : ModelState) : EntryPoint :=
  if String.eqb (resultsName st) "gestureResults"
  then recognizeForVideo else detectForVideo.

(** The [for (let landmarker of allModelState)] loop up to its next
    detection call. *)
Fixpoint detect_loop (fr : Frame) (ms : list ModelId) (w : World)
  : World * option Suspended :=
  match ms with
  | [] => (w, None)
  | m :: rest =>
      let st := models w m in
      match detect st, landmarker st with
      | true, Some marker =>
          (emit (EDetect m marker (entry_point st) (startTimeMs fr)) w,
           Some {| s_frame := fr; s_pending := m; s_rest := rest |})
      | _, _ => detect_loop fr rest w
      end
  end.

Definition results_value (r : option Result) : Value :=
  match r with
  | Some r => VResult r
  | None => VUndefined
  end.

(** The object handed to [JSON.stringify] after a detection. *)
Definition result_message (name : string) (r : Value) (vw vh : Z) : Value :=
  VObj (obj_set (obj_set [] name r) "resolution"
          (VObj [("width", VNum vw); ("height", VNum vh)])).

Definition timing_message (timeToDetect : Z) : Value :=
  VObj [("detectTime", VNum timeToDetect)].

(** The rest of the loop body once the awaited call has returned [r]. *)
Definition after_await (m : ModelId) (r : Result) (w : World) : World :=
  let w1 := set_results m (Some r) w in
  safeSocketSend (socketState_ws w1)
    (result_message (resultsName (models w1 m)) (results_value (results (models w1 m)))
       (videoWidth (video w1)) (videoHeight (video w1)))
    w1.

Fixpoint draw_landmarkers (ms : list ModelId) (w : World) : World :=
  match ms with
  | [] => w
  | m :: rest =>
      let st := models w m in
      match detect st, results st with
      | true, Some r => draw_landmarkers rest (emit (EDraw m r) w)
      | _, _ => draw_landmarkers rest w
      end
  end.

Definition draw_object (os : ModelId) (w : World) : World :=
  match detect (models w os), results (models w os) with
  | true, Some _ => emit EObjectDraw w
  | _, _ => w
  end.

(** Everything after the detection block: overlays, rescheduling, timing. *)
Definition epilogue (fr : Frame) (w : World) : World :=
  let w1 := if overlayState_show w
            then draw_object (objectState fr) (draw_landmarkers landmarkerModelState w)
            else w in
  let w2 := if webcamRunning (webcamState w1)
            then emit ERequestAnimationFrame w1 else w1 in
  let endDetect := Date_now w2 in
  let timeToDetect := endDetect - startDetect fr in
  safeSocketSend (socketState_ws w2) (timing_message timeToDetect) w2.

Definition finish (fr : Frame) (st : World * option Suspended)
  : World * option Suspended :=
  match st with
  | (w, Some s) => (w, Some s)
  | (w, None) => (epilogue fr w, None)
  end.

(** [element.style.width = n] with a number: the number is read as the
    text of a CSS length, which without a unit is valid for 0 only, and an
    invalid value leaves the declaration as it was. *)
Definition set_style_length (old n : Z) : Z := if n =? 0 then 0 else old.

Definition resized (e : Surface) (v : Video) : Surface :=
  {| style_width := set_style_length (style_width e) (videoWidth v);
     style_height := set_style_length (style_height e) (videoHeight v);
     width := videoWidth v; height := videoHeight v |}.

Definition resize (w : World) : World :=
  set_surfaces (resized (canvasElement w) (video w)) (resized (objectsDiv w) (video w)) w.

(** One invocation, from its entry to its first [await] or, when it awaits
    nothing, to its end. *)
Definition predictWebcam (allModelState : list ModelId) (objectState : ModelId)
    (w : World) : World * option Suspended :=
  let startDetect := Date_now w in
  if (videoWidth (video w) =? 0) || (videoHeight (video w) =? 0) then
    (emit (EConsoleLog [VStr "videoWidth or videoHeight is 0"]) w, None)
  else
    let w1 := resize w in
    let fr := {| startDetect := startDetect; startTimeMs := performance_now w1;
                 objectState := objectState |} in
    if negb (lastVideoTime (webcamState w1) =? currentTime (video w1)) then
      finish fr (detect_loop fr allModelState
                   (set_lastVideoTime (currentTime (video w1)) w1))
    else (epilogue fr w1, None).

(** The invocation continues when the awaited detection call delivers [r],
    in whatever world the event loop has reached by then. *)
Definition predictWebcam_resume (s : Suspended) (r : Result) (w : World)
  : World * option Suspended :=
  finish (s_frame s) (detect_loop (s_frame s) (s_rest s) (after_await (s_pending s) r w)).

(** *** A frame run to its end

    A frame with nothing else interleaved at its [await]s: each awaited
    call is answered in turn by an oracle that gives the result object and
    the milliseconds the call took. *)
Definition Oracle : Type := ModelId -> Result * Z.

Definition tick (d : Z) (w : World) : World :=
  set_clocks (Date_now w + d) (performance_now w + d) w.

Fixpoint drive (fuel : nat) (oracle : Oracle) (st : World * option Suspended)
  : World * option Suspended :=
  match fuel, st with
  | S n, (w, Some s) =>
      let '(r, d) := oracle (s_pending s) in
      drive n oracle (predictWebcam_resume s r (tick d w))
  | _, _ => st
  end.

Definition run_frame (oracle : Oracle) (ams : list ModelId) (os : ModelId) (w : World)
  : World * option Suspended :=
  drive (length ams) oracle (predictWebcam ams os w).

(** ** [enableCam] *)

(** The call of [navigator.mediaDevices.getUserMedia]; what its promise
    does when it settles happens in a later turn of the event loop. *)
Definition enableCam (w : World) : World :=
  emit (EGetUserMedia {| c_deviceId := webcamId (webcamState w); c_height_exact := 720;
                         c_frameRate_ideal := 60; c_frameRate_min := 25 |}) w.

(** ** Configuration and the inbound message handler *)

Inductive Outcome : Type :=
| Returned
| Threw (error : string).

(** What [key in configMap] can find.  [configMap] is an object literal of
    [modelParams.js]: besides its own properties, the option setters, it has
    the properties every object inherits from [Object.prototype], and [in]
    finds those too.  Called as [configMap[key](value)], most of the
    inherited methods return without changing anything ([constructor],
    [hasOwnProperty], [isPrototypeOf], [propertyIsEnumerable], [toString],
    [valueOf], [__lookupGetter__], [__lookupSetter__]); [toLocaleString]
    calls [this.toString()]; [__defineGetter__] and [__defineSetter__] throw
    for want of a function as second argument; and [__proto__] is an
    object, not a function, so that calling it throws. *)
Inductive Property : Type :=
| OwnOption (setter : Value -> World -> World)
| InheritedMethod
| InheritedToLocaleString
| InheritedThrowing.

Definition Object_prototype (key : string) : option Property :=
  if bool_decide (key ∈ ["constructor"; "hasOwnProperty"; "isPrototypeOf";
                         "propertyIsEnumerable"; "toString"; "valueOf";
                         "__lookupGetter__"; "__lookupSetter__"])
  then Some InheritedMethod
  else if bool_decide (key = "toLocaleString") then Some InheritedToLocaleString
  else if bool_decide (key ∈ ["__proto__"; "__defineGetter__"; "__defineSetter__"])
  then Some InheritedThrowing
  else None.

Section Config.

(** The own properties of [configMap] ([modelParams.js] is not part of
    [main.js]): option name to setter.  A setter may change any state. *)
Context (configMap : gmap string (Value -> World -> World)).

(** [JSON.parse]; [None] is its SyntaxError. *)
Context (JSON_parse : string -> option Value).

(** [key in configMap]: an own property shadows an inherited one. *)
Definition config_in (key : string) : option Property :=
  match configMap !! key with
  | Some setter => Some (OwnOption setter)
  | None => Object_prototype key
  end.

(** [configMap[key](value)] for a property that [in] found. *)
Definition config_call (pr : Property) (value : Value) (w : World) : World * Outcome :=
  match pr with
  | OwnOption setter => (setter value w, Returned)
  | InheritedMethod => (w, Returned)
  | InheritedToLocaleString =>
      match configMap !! "toString" with
      | Some setter => (setter VUndefined w, Returned)
      | None => (w, Returned)
      end
  | InheritedThrowing => (w, Threw "TypeError")
  end.

(** [handleQueryParams], on the key/value pairs of the query string.  An
    exception thrown in the callback leaves [forEach] and the function. *)
Fixpoint handleQueryParams (urlParams : list (string * string)) (w : World)
  : World * Outcome :=
  match urlParams with
  | [] => (w, Returned)
  | (key, value) :: rest =>
      match config_in key with
      | Some pr =>
          match config_call pr (VStr value) w with
          | (w', Returned) => handleQueryParams rest w'
          | (w', Threw e) => (w', Threw e)
          end
      | None => handleQueryParams rest w
      end
  end.

(** The [else for (let [key, value] of Object.entries(data))] loop. *)
Fixpoint apply_entries (entries : list (string * Value)) (w : World)
  : World * Outcome :=
  match entries with
  | [] => (w, Returned)
  | (key, value) :: rest =>
      match config_in key with
      | Some pr =>
          match to_string value with
          | Some s =>
              match config_call pr value
                      (emit (EConsoleLog [VStr ("Got WS dats: " +:+ key +:+ " : " +:+ s)]) w)
              with
              | (w', Returned) => apply_entries rest w'
              | (w', Threw e) => (w', Threw e)
              end
          | None => (w, Threw "TypeError")
          end
      | None => apply_entries rest w
      end
  end.

(** The ['message'] listener installed by [setupWebSocket]. *)
Definition setupWebSocket_onmessage (event_data : string) (w : World)
  : World * Outcome :=
  if String.eqb event_data "ping" || String.eqb event_data "pong" then (w, Returned)
  else
    match JSON_parse event_data with
    | None => (w, Threw "SyntaxError")
    | Some data =>
        let w1 := emit (EConsoleLog [VStr "Data received: "; data]) w in
        match get_prop data "type" with
        | None => (w1, Threw "TypeError")
        | Some ty =>
            match loose_eq_selectWebcam ty with
            | None => (w1, Threw "TypeError")
            | Some true =>
                match get_prop data "deviceId" with
                | None => (w1, Threw "TypeError")
                | Some id =>
                    match to_string id with
                    | None => (w1, Threw "TypeError")
                    | Some s =>
                        let w2 :=
                          emit (EConsoleLog [VStr ("Got webcamId via WS: " +:+ s)]) w1 in
                        let w3 := if checkDeviceIds id (webcamDevices (webcamState w2))
                                  then set_webcamId id w2 else w2 in
                        (enableCam w3, Returned)
                    end
                end
            | Some false => apply_entries (Object_entries data) w1
            end
        end
    end.

End Config.

(** ** Reading a trace *)

Definition is_detect (e : Event) : bool :=
  match e with EDetect _ _ _ _ => true | _ => false end.

Definition is_draw (e : Event) : bool :=
  match e with EDraw _ _ | EObjectDraw => true | _ => false end.

Definition is_raf (e : Event) : bool :=
  match e with ERequestAnimationFrame => true | _ => false end.

Definition is_capture (e : Event) : bool :=
  match e with EGetUserMedia _ => true | _ => false end.

(** The payloads given to [ws.send], in order. *)
Definition sent (evs : list Event) : list Value :=
  flat_map (fun e => match e with EWsSend d => [d] | _ => [] end) evs.

(** The calls made between world [w] and a later world [w']. *)
Definition new_events (w w' : World) : list Event :=
  drop (length (trace w)) (trace w').

(** ** What a frame is expected to do, stated on the world it starts in *)

(** A registry entry takes part in detection when its [detect] flag is set
    and its adapter is loaded. *)
Definition enabled (st : ModelState) : bool :=
  match landmarker st with
  | Some _ => detect st
  | None => false
  end.

Definition is_open (w : World) : bool := readyState (socketState_ws w) =? OPEN.

Definition transmit (w : World) (data : Value) : list Event :=
  if is_open w then [EWsSend data] else [].

Definition outbound_result (oracle : Oracle) (w : World) (m : ModelId) : Value :=
  result_message (resultsName (models w m)) (VResult (oracle m).1)
    (videoWidth (video w)) (videoHeight (video w)).

(** The detection call of one model and the transmission that follows it. *)
Definition detect_block (oracle : Oracle) (w : World) (ts : Z) (m : ModelId)
  : list Event :=
  match landmarker (models w m) with
  | Some marker =>
      if detect (models w m)
      then EDetect m marker (entry_point (models w m)) ts
             :: transmit w (outbound_result oracle w m)
      else []
  | None => []
  end.

Definition detect_events (oracle : Oracle) (w : World) (ts : Z) (ms : list ModelId)
  : list Event :=
  flat_map (detect_block oracle w ts) ms.

Definition results_after (oracle : Oracle) (w : World) (ms : list ModelId) (m : ModelId)
  : option Result :=
  if enabled (models w m) && bool_decide (m ∈ ms)
  then Some (oracle m).1 else results (models w m).

Definition elapsed (oracle : Oracle) (w : World) (ms : list ModelId) : Z :=
  foldr (fun m acc => (if enabled (models w m) then (oracle m).2 else 0) + acc) 0 ms.

Definition draw_block (w : World) (res : ModelId -> option Result) (m : ModelId)
  : list Event :=
  match res m with
  | Some r => if detect (models w m) then [EDraw m r] else []
  | None => []
  end.

Definition object_draw_block (w : World) (res : ModelId -> option Result) (os : ModelId)
  : list Event :=
  match res os with
  | Some _ => if detect (models w os) then [EObjectDraw] else []
  | None => []
  end.

Definition draw_events (w : World) (res : ModelId -> option Result) (os : ModelId)
  : list Event :=
  if overlayState_show w
  then flat_map (draw_block w res) landmarkerModelState ++ object_draw_block w res os
  else [].

Definition raf_events (w : World) : list Event :=
  if webcamRunning (webcamState w) then [ERequestAnimationFrame] else [].

(** The calls of a whole frame that passes the size guard. *)
Definition frame_events (oracle : Oracle) (ams : list ModelId) (os : ModelId) (w : World)
  : list Event :=
  if lastVideoTime (webcamState w) =? currentTime (video w)
  then draw_events w (fun m => results (models w m)) os
         ++ raf_events w ++ transmit w (timing_message 0)
  else detect_events oracle w (performance_now w) ams
         ++ draw_events w (results_after oracle w ams) os
         ++ raf_events w ++ transmit w (timing_message (elapsed oracle w ams)).

Definition size_guard (w : World) : bool :=
  (videoWidth (video w) =? 0) || (videoHeight (video w) =? 0).

(** The detection loop with every call answered by the oracle. *)
Fixpoint run_loop (oracle : Oracle) (fr : Frame) (ms : list ModelId) (w : World) : World :=
  match ms with
  | [] => w
  | m :: rest =>
      let st := models w m in
      match detect st, landmarker st with
      | true, Some marker =>
          run_loop oracle fr rest
            (after_await m (oracle m).1
               (tick (oracle m).2
                  (emit (EDetect m marker (entry_point st) (startTimeMs fr)) w)))
      | _, _ => run_loop oracle fr rest w
      end
  end.

(** Frame callbacks run one after another, each to its end. *)
Fixpoint run_frames (oracles : list Oracle) (ams : list ModelId) (os : ModelId) (w : World)
  : World :=
  match oracles with
  | [] => w
  | o :: rest => run_frames rest ams os (run_frame o ams os w).1
  end.

(** What no detection loop changes: the flags, adapters and names of the
    registry, the capture flag, the overlay toggle, the connection and the
    video element. *)
Definition static_eq (w w' : World) : Prop :=
  (forall m, detect (models w' m) = detect (models w m)
             /\ landmarker (models w' m) = landmarker (models w m)
             /\ resultsName (models w' m) = resultsName (models w m))
  /\ webcamRunning (webcamState w') = webcamRunning (webcamState w)
  /\ overlayState_show w' = overlayState_show w
  /\ socketState_ws w' = socketState_ws w
  /\ video w' = video w.

(** The state.js registry gives the gesture entry, and no other, the results
    name the loop tests for. *)
Definition gesture_named (w : World) : Prop :=
  forall m, resultsName (models w m) = "gestureResults" <-> m = Gesture.

(** ** Calls and states expected of a frame, continued *)

Definition epilogue_events (fr : Frame) (w : World) : list Event :=
  draw_events w (fun m => results (models w m)) (objectState fr)
    ++ raf_events w ++ transmit w (timing_message (Date_now w - startDetect fr)).

(** The state reached by the detection loop, in terms of the state it
    started in. *)
Record loop_post (oracle : Oracle) (ts : Z) (ms : list ModelId) (w w' : World) : Prop := {
  post_static : static_eq w w';
  post_webcam : webcamState w' = webcamState w;
  post_canvas : canvasElement w' = canvasElement w;
  post_objects : objectsDiv w' = objectsDiv w;
  post_trace : trace w' = trace w ++ detect_events oracle w ts ms;
  post_results : forall m, results (models w' m) = results_after oracle w ms m;
  post_clock : Date_now w' = Date_now w + elapsed oracle w ms
}.

(** The whole effect of a frame that passes the size guard. *)
Record frame_post (oracle : Oracle) (ams : list ModelId) (os : ModelId) (w w' : World)
  : Prop := {
  fp_static : static_eq w w';
  fp_trace : trace w' = trace w ++ frame_events oracle ams os w;
  fp_last : lastVideoTime (webcamState w') = currentTime (video w);
  fp_results : forall m,
      results (models w' m)
      = if lastVideoTime (webcamState w) =? currentTime (video w)
        then results (models w m) else results_after oracle w ams m
}.

(** The detection call expected of a registry entry, and the draw call
    expected of it once the frame's results are in. *)
Definition detect_call (w : World) (ts : Z) (m : ModelId) : list Event :=
  match landmarker (models w m) with
  | Some marker =>
      if detect (models w m)
      then [EDetect m marker
              (if decide (m = Gesture) then recognizeForVideo else detectForVideo) ts]
      else []
  | None => []
  end.

Definition registry_draw (w : World) (res : ModelId -> option Result) (m : ModelId)
  : list Event :=
  match res m with
  | Some r =>
      if detect (models w m)
      then [if decide (m = Object) then EObjectDraw else EDraw m r]
      else []
  | None => []
  end.

Definition not_raf (e : Event) : bool := negb (is_raf e).

(** ** A concrete session

    A state of the page after setup: the hand, gesture and object models
    switched on, every adapter loaded, overlays shown, one known camera, the
    connection open and the first video frame waiting. *)
Definition example_names (m : ModelId) : string :=
  match m with
  | FaceLandmark => "faceLandmarkResults"
  | FaceDetector => "faceDetectorResults"
  | Hand => "handResults"
  | Gesture => "gestureResults"
  | Pose => "poseResults"
  | Object => "objectResults"
  end.

Definition example_world : World :=
  {| models := fun m =>
       {| detect := match m with Hand | Gesture | Object => true | _ => false end;
          landmarker := Some 7%nat; results := None; resultsName := example_names m |};
     webcamState :=
       {| webcamId := VUndefined;
          webcamDevices := [ {| deviceId := "cam1"; label := "Front camera" |} ];
          webcamRunning := true; lastVideoTime := -1 |};
     overlayState_show := true;
     socketState_ws := {| readyState := OPEN |};
     video := {| videoWidth := 1280; videoHeight := 720; currentTime := 0 |};
     canvasElement := {| style_width := 0; style_height := 0; width := 0; height := 0 |};
     objectsDiv := {| style_width := 0; style_height := 0; width := 0; height := 0 |};
     Date_now := 1000; performance_now := 50; trace := [] |}.

(** Each detection takes five milliseconds. *)
Definition example_oracle : Oracle :=
  fun m => (match m with Hand => 11 | Gesture => 12 | _ => 13 end%nat, 5).

(** The same page with the connection still being established. *)
Definition connecting_world : World := set_socket {| readyState := 0 |} example_world.

(** The page after its first frame, then with the video element emptied
    (a stream being replaced) while the video time stays where it was. *)
Definition second_world : World :=
  (run_frame example_oracle allModelState Object example_world).1.

Definition emptied_world : World :=
  set_video {| videoWidth := 0; videoHeight := 0; currentTime := 0 |} second_world.



(** The first frame left waiting on its first detection call; then the
    video one step ahead, where a second invocation starts; then, both
    still waiting, the video back at the time of the first. *)
Definition waiting_world : World := (predictWebcam allModelState Object example_world).1.

Definition overtaken_world : World :=
  set_video {| videoWidth := 1280; videoHeight := 720; currentTime := 0 |}
    (predictWebcam allModelState Object
       (set_video {| videoWidth := 1280; videoHeight := 720; currentTime := 1 |}
          waiting_world)).1.

(** A table with one option, and a parser that knows two messages. *)
Definition example_configMap : gmap string (Value -> World -> World) :=
  {[ "Showoverlays" :=
       fun v w => set_overlayState_show
                    (match v with VStr "1" | VNum 1 | VBool true => true | _ => false end) w ]}.

Definition example_select : Value :=
  VObj [("type", VStr "selectWebcam"); ("deviceId", VStr "cam1")].

Definition example_patch : Value :=
  VObj [("Bogus", VNum 3)].

Definition example_parse (s : string) : option Value :=
  if String.eqb s "select" then Some example_select
  else if String.eqb s "patch" then Some example_patch
  else None.

(** ** The rest of the page: devices, capture, the connection, setup *)

Definition set_landmarker (m : ModelId) (a : option Adapter) (w : World) : World :=
  set_models
    (fun m' =>
       if decide (m' = m)
       then {| detect := detect (models w m); landmarker := a;
               results := results (models w m); resultsName := resultsName (models w m) |}
       else models w m')
    w.

Definition set_webcamDevices (l : list DeviceInfo) (w : World) : World :=
  set_webcamState
    {| webcamId := webcamId (webcamState w); webcamDevices := l;
       webcamRunning := webcamRunning (webcamState w);
       lastVideoTime := lastVideoTime (webcamState w) |}
    w.

(** What [enumerateDevices] reports of a device. *)
Record MediaDeviceInfo : Type := {
  md_deviceId : string;
  md_kind : string;
  md_label : string
}.

(** The world together with what else [main.js] writes: the page
    background, [console.error], the stream attached to the video element
    (the settings of its tracks), the ['loadeddata'] listeners added to it,
    and the address the connection was opened to. *)
Record Page : Type := {
  world : World;
  backgroundColor : option string;
  console_error : list (list Value);
  srcObject : option (list Value);
  loadeddata_listeners : nat;
  ws_url : option string
}.

Definition on_world (f : World -> World) (p : Page) : Page :=
  {| world := f (world p); backgroundColor := backgroundColor p;
     console_error := console_error p; srcObject := srcObject p;
     loadeddata_listeners := loadeddata_listeners p; ws_url := ws_url p |}.

Definition report_error (args : list Value) (p : Page) : Page :=
  {| world := world p; backgroundColor := backgroundColor p;
     console_error := console_error p ++ [args]; srcObject := srcObject p;
     loadeddata_listeners := loadeddata_listeners p; ws_url := ws_url p |}.

Definition set_backgroundColor (c : string) (p : Page) : Page :=
  {| world := world p; backgroundColor := Some c;
     console_error := console_error p; srcObject := srcObject p;
     loadeddata_listeners := loadeddata_listeners p; ws_url := ws_url p |}.

(** [getWebcamDevices], on what [enumerateDevices] settles to: the device
    list, or the error it rejects with. *)
Definition getWebcamDevices (enumerated : list MediaDeviceInfo + Value) (p : Page)
  : list DeviceInfo * Page :=
  match enumerated with
  | inl devices =>
      ((fun d => {| deviceId := md_deviceId d; label := md_label d |})
         <$> filter (fun d => md_kind d = "videoinput") devices,
       p)
  | inr error =>
      ([], set_backgroundColor "red"
             (report_error [VStr "Error getting webcam devices:"; error] p))
  end.

(** The two continuations of [getUserMedia] in [enableCam]. *)
Fixpoint log_settings (tracks : list Value) (w : World) : World :=
  match tracks with
  | [] => w
  | settings :: rest =>
      log_settings rest (emit (EConsoleLog [VStr "Webcam settings: "; settings]) w)
  end.

Definition enableCam_granted (stream : list Value) (p : Page) : Page :=
  {| world := log_settings stream (set_webcamRunning true (world p));
     backgroundColor := backgroundColor p;
     console_error := console_error p;
     srcObject := Some stream;
     loadeddata_listeners := S (loadeddata_listeners p);
     ws_url := ws_url p |}.

Definition enableCam_denied (name message : string) (p : Page) : Page :=
  on_world (emit (EConsoleLog [VStr (name +:+ ": " +:+ message)]))
    (set_backgroundColor "red" p).

(** Callbacks due at the same moment (the ['loadeddata'] listeners, or the
    animation-frame callbacks of one display frame) run one after another,
    each up to its first [await]. *)
Fixpoint fire (k : nat) (w : World) : World * list Suspended :=
  match k with
  | O => (w, [])
  | S k' =>
      let r := predictWebcam allModelState Object w in
      let rs := fire k' r.1 in
      (rs.1, option_list r.2 ++ rs.2)
  end.

Definition on_loadeddata (p : Page) : World * list Suspended :=
  fire (loadeddata_listeners p) (world p).

(** [setupWebSocket] once [new WebSocket(socketURL)] has returned: the new
    connection starts out connecting. *)
Definition setupWebSocket (socketURL : string) (p : Page) : Page :=
  {| world := set_socket {| readyState := 0 |} (world p);
     backgroundColor := backgroundColor p;
     console_error := console_error p;
     srcObject := srcObject p;
     loadeddata_listeners := loadeddata_listeners p;
     ws_url := Some socketURL |}.

Definition device_value (d : DeviceInfo) : Value :=
  VObj [("deviceId", VStr (deviceId d)); ("label", VStr (label d))].

Definition devices_message (devices : list DeviceInfo) : Value :=
  VObj [("type", VStr "webcamDevices"); ("devices", VArr (device_value <$> devices))].

(** The ['open'] listener, and the continuation of the [getWebcamDevices]
    call it makes. *)
Definition setupWebSocket_onopen (p : Page) : Page :=
  on_world (fun w => emit (EWsSend (VStr "pong"))
                       (emit (EConsoleLog [VStr "WebSocket connection opened:"]) w)) p.

Definition setupWebSocket_onopen_devices (enumerated : list MediaDeviceInfo + Value)
    (p : Page) : Page :=
  let '(devices, p1) := getWebcamDevices enumerated p in
  on_world (fun w => emit (EWsSend (devices_message devices))
                       (emit (EConsoleLog [VStr "Availalbe webcam devices: ";
                                           VArr (device_value <$> devices)]) w)) p1.

Definition setupWebSocket_onerror (error : Value) (p : Page) : Page :=
  report_error [VStr "Error in websocket connection"; error] p.

Definition setupWebSocket_onclose (p : Page) : Page :=
  on_world (emit (EConsoleLog [VStr "Socket connection closed"])) p.

(** [setup].  What the page cannot know beforehand comes as input: the query
    string, what [enumerateDevices] settles to, the adapter each [create...]
    call resolves to ([None] when it rejects), the value logged before the
    pose model is loaded, the address built from [allowedPars], and whether
    the [WebSocket] constructor accepts that address (it throws a
    SyntaxError for one it cannot parse or whose scheme it does not
    allow). *)
Record SetupInput : Type := {
  in_urlParams : list (string * string);
  in_enumerated : list MediaDeviceInfo + Value;
  in_create : ModelId -> option Adapter;
  in_pose_modelPath : Value;
  in_socketURL : string;
  in_socket_accepted : bool
}.

(** The call [setupWebSocket(socketURL)]: when the constructor throws,
    nothing has been assigned and no listener installed. *)
Definition setupWebSocket_call (accepted : bool) (socketURL : string) (p : Page)
  : Page * Outcome :=
  if accepted then (setupWebSocket socketURL p, Returned) else (p, Threw "SyntaxError").

Definition and_then (r : Page * Outcome) (k : Page -> Page * Outcome) : Page * Outcome :=
  match r with
  | (p, Returned) => k p
  | (p, Threw e) => (p, Threw e)
  end.

Definition create (input : SetupInput) (m : ModelId) (p : Page) : Page * Outcome :=
  match in_create input m with
  | Some a => (on_world (set_landmarker m (Some a)) p, Returned)
  | None => (p, Threw "create")
  end.

Definition setup (configMap : gmap string (Value -> World -> World))
    (input : SetupInput) (p : Page) : Page * Outcome :=
  let q := handleQueryParams configMap (in_urlParams input) (world p) in
  and_then (on_world (fun _ => q.1) p, q.2) (fun p1 =>
  let '(devices, p2) := getWebcamDevices (in_enumerated input) p1 in
  let p3 := on_world (set_webcamDevices devices) p2 in
  and_then (create input Hand p3) (fun p =>
  and_then (create input Gesture p) (fun p =>
  and_then (create input FaceLandmark p) (fun p =>
  and_then (create input FaceDetector p) (fun p =>
  and_then (create input Pose
              (on_world (emit (EConsoleLog [in_pose_modelPath input])) p)) (fun p =>
  and_then (create input Object p) (fun p =>
  and_then (setupWebSocket_call (in_socket_accepted input) (in_socketURL input) p)
    (fun p => (on_world enableCam p, Returned))))))))).

(** Every way [main.js] moves the page on: its own listeners and
    continuations, and the browser changing the video element, the clocks
    and the state of the connection. *)
Inductive page_step (configMap : gmap string (Value -> World -> World))
    (JSON_parse : string -> option Value) : Page -> Page -> Prop :=
| step_frame p :
    page_step configMap JSON_parse p
      (on_world (fun w => (predictWebcam allModelState Object w).1) p)
| step_resume p s r :
    page_step configMap JSON_parse p
      (on_world (fun w => (predictWebcam_resume s r w).1) p)
| step_message p data :
    page_step configMap JSON_parse p
      (on_world (fun w => (setupWebSocket_onmessage configMap JSON_parse data w).1) p)
| step_open p :
    page_step configMap JSON_parse p (setupWebSocket_onopen p)
| step_open_devices p enumerated :
    page_step configMap JSON_parse p (setupWebSocket_onopen_devices enumerated p)
| step_error p error :
    page_step configMap JSON_parse p (setupWebSocket_onerror error p)
| step_close p :
    page_step configMap JSON_parse p (setupWebSocket_onclose p)
| step_granted p stream :
    page_step configMap JSON_parse p (enableCam_granted stream p)
| step_denied p name message :
    page_step configMap JSON_parse p (enableCam_denied name message p)
| step_browser p v d t ws :
    page_step configMap JSON_parse p
      (on_world (fun w => set_socket ws (set_clocks d t (set_video v w))) p).


(** A table none of whose setters writes [webcamDevices]. *)
Definition keeps_devices (configMap : gmap string (Value -> World -> World)) : Prop :=
  forall key setter value w,
    configMap !! key = Some setter ->
    webcamDevices (webcamState (setter value w)) = webcamDevices (webcamState w).

(** The entries of a query string or of a configuration patch whose name
    [in] finds in [configMap]. *)
Definition known_entries {A : Type} (configMap : gmap string (Value -> World -> World))
    (entries : list (string * A)) : list (string * A) :=
  filter (fun kv => is_Some (config_in configMap kv.1)) entries.

(** The frame's calls other than draw calls. *)
Definition not_draw (e : Event) : bool := negb (is_draw e).

(** Whether an event names a registry entry. *)
Definition event_model (e : Event) : option ModelId :=
  match e with
  | EDetect m _ _ _ => Some m
  | EDraw m _ => Some m
  | _ => None
  end.

Definition count_raf (evs : list Event) : nat := length (filter is_raf evs).

(** The page of the concrete session before [setup], what the browser
    enumerates there, and two inputs of [setup]: one with every model
    loading, one where the pose model fails to load. *)
Definition example_page : Page :=
  {| world := example_world; backgroundColor := None; console_error := [];
     srcObject := None; loadeddata_listeners := 0; ws_url := None |}.

Definition example_enumerated : list MediaDeviceInfo :=
  [ {| md_deviceId := "cam1"; md_kind := "videoinput"; md_label := "Front camera" |};
    {| md_deviceId := "mic1"; md_kind := "audioinput"; md_label := "Microphone" |} ].

Definition example_input : SetupInput :=
  {| in_urlParams := [("Showoverlays", "0"); ("Bogus", "1")];
     in_enumerated := inl example_enumerated;
     in_create := fun m =>
       Some (match m with
             | Hand => 1 | Gesture => 2 | FaceLandmark => 3
             | FaceDetector => 4 | Pose => 5 | Object => 6
             end%nat);
     in_pose_modelPath := VUndefined;
     in_socketURL := "ws://localhost:9980";
     in_socket_accepted := true |}.

Definition failing_input : SetupInput :=
  {| in_urlParams := in_urlParams example_input;
     in_enumerated := in_enumerated example_input;
     in_create := fun m => if decide (m = Pose) then None else in_create example_input m;
     in_pose_modelPath := VUndefined;
     in_socketURL := in_socketURL example_input;
     in_socket_accepted := true |}.

(** A query string with an inherited name in it, and an address the
    [WebSocket] constructor refuses. *)
Definition poisoned_input : SetupInput :=
  {| in_urlParams := [("Showoverlays", "0"); ("__proto__", "1")];
     in_enumerated := in_enumerated example_input;
     in_create := in_create example_input;
     in_pose_modelPath := VUndefined;
     in_socketURL := in_socketURL example_input;
     in_socket_accepted := true |}.

Definition refused_input : SetupInput :=
  {| in_urlParams := in_urlParams example_input;
     in_enumerated := in_enumerated example_input;
     in_create := in_create example_input;
     in_pose_modelPath := VUndefined;
     in_socketURL := "localhost:9980";
     in_socket_accepted := false |}.

(** ** Basic facts *)

Lemma trace_emit e w : trace (emit e w) = trace w ++ [e].
Proof. reflexivity. Qed.

Lemma set_trace_id w : set_trace (trace w) w = w.
Proof. by destruct w. Qed.

Lemma set_trace_twice t t' w : set_trace t (set_trace t' w) = set_trace t w.
Proof. reflexivity. Qed.

Lemma emit_set_trace e w evs :
  emit e (set_trace (trace w ++ evs) w) = set_trace (trace w ++ evs ++ [e]) w.
Proof. unfold emit; simpl. by rewrite <- (assoc_L (++)). Qed.

Lemma new_events_app w w' evs : trace w' = trace w ++ evs -> new_events w w' = evs.
Proof. unfold new_events; intros ->. by rewrite drop_app_length. Qed.

Lemma sent_app a b : sent (a ++ b) = sent a ++ sent b.
Proof. unfold sent. by rewrite flat_map_app. Qed.

Lemma static_eq_refl w : static_eq w w.
Proof. by repeat split. Qed.

Lemma static_eq_trans w1 w2 w3 : static_eq w1 w2 -> static_eq w2 w3 -> static_eq w1 w3.
Proof.
  intros (Hm & Hr & Ho & Hs & Hv) (Hm' & Hr' & Ho' & Hs' & Hv').
  repeat split; try congruence; destruct (Hm m) as (?&?&?), (Hm' m) as (?&?&?); congruence.
Qed.

Lemma safeSocketSend_eq w data :
  safeSocketSend (socketState_ws w) data w = set_trace (trace w ++ transmit w data) w.
Proof.
  unfold safeSocketSend, transmit, is_open.
  destruct (readyState (socketState_ws w) =? OPEN); [done|].
  by rewrite app_nil_r, set_trace_id.
Qed.

(** ** The suspended invocation and the frame run to its end agree *)

Lemma drive_done fuel oracle w : drive fuel oracle (w, None) = (w, None).
Proof. by destruct fuel. Qed.

Lemma drive_finish oracle fr ms :
  forall (fuel : nat) w,
    (length ms <= fuel)%nat ->
    drive fuel oracle (finish fr (detect_loop fr ms w))
    = (epilogue fr (run_loop oracle fr ms w), None).
Proof.
  induction ms as [|m rest IH]; intros fuel w Hfuel; simpl.
  - apply drive_done.
  - destruct (detect (models w m)) eqn:Hd; [|apply IH; simpl in Hfuel; lia].
    destruct (landmarker (models w m)) as [marker|] eqn:Hl;
      [|apply IH; simpl in Hfuel; lia].
    destruct fuel as [|fuel]; [simpl in Hfuel; lia|].
    simpl. destruct (oracle m) as [r d] eqn:Ho. unfold predictWebcam_resume; simpl.
    apply IH. simpl in Hfuel. lia.
Qed.

(** ** Effects of the pieces of a frame *)

Lemma static_eq_detect_block oracle w w' ts m :
  static_eq w w' -> detect_block oracle w' ts m = detect_block oracle w ts m.
Proof.
  intros (Hm & _ & _ & Hs & Hv). destruct (Hm m) as (Hd & Hl & Hn).
  unfold detect_block, transmit, is_open, outbound_result, entry_point.
  by rewrite Hd, Hl, Hn, Hs, Hv.
Qed.

Lemma static_eq_detect_events oracle w w' ts ms :
  static_eq w w' -> detect_events oracle w' ts ms = detect_events oracle w ts ms.
Proof.
  intros H. unfold detect_events. induction ms as [|m rest IH]; [done|].
  simpl. by rewrite IH, (static_eq_detect_block _ _ _ _ _ H).
Qed.

Lemma static_eq_enabled w w' m :
  static_eq w w' -> enabled (models w' m) = enabled (models w m).
Proof.
  intros (Hm & _). destruct (Hm m) as (Hd & Hl & _). unfold enabled. by rewrite Hd, Hl.
Qed.

Lemma static_eq_elapsed oracle w w' ms :
  static_eq w w' -> elapsed oracle w' ms = elapsed oracle w ms.
Proof.
  intros H. induction ms as [|m rest IH]; [done|].
  simpl. by rewrite IH, (static_eq_enabled _ _ _ H).
Qed.

Lemma static_eq_draw_events w w' res res' os :
  static_eq w w' -> (forall m, res' m = res m) ->
  draw_events w' res' os = draw_events w res os.
Proof.
  intros (Hm & _ & Ho & _) Hres. unfold draw_events. rewrite Ho.
  destruct (overlayState_show w); [|done].
  f_equal.
  - induction landmarkerModelState as [|m rest IH]; [done|].
    simpl. rewrite IH. f_equal. unfold draw_block.
    destruct (Hm m) as (Hd & _). by rewrite Hres, Hd.
  - unfold object_draw_block. destruct (Hm os) as (Hd & _). by rewrite Hres, Hd.
Qed.

Lemma static_eq_step w m marker ep ts r d :
  static_eq w (after_await m r (tick d (emit (EDetect m marker ep ts) w))).
Proof.
  unfold after_await. rewrite safeSocketSend_eq.
  repeat split; simpl; destruct (decide (m0 = m)) as [->|]; done.
Qed.

Lemma run_loop_post oracle fr ms :
  forall w, loop_post oracle (startTimeMs fr) ms w (run_loop oracle fr ms w).
Proof.
  induction ms as [|m rest IH]; intros w.
  - simpl. split; try done.
    + by rewrite app_nil_r.
    + intros m. unfold results_after. rewrite bool_decide_eq_false_2 by apply not_elem_of_nil.
      by rewrite andb_false_r.
    + simpl. lia.
  - assert (Hskip : enabled (models w m) = false ->
              loop_post oracle (startTimeMs fr) (m :: rest) w (run_loop oracle fr rest w)).
    { intros Hen. destruct (IH w) as [H1 H2 H3 H4 H5 H6 H7]. split; try done.
      - rewrite H5. unfold detect_events; simpl. f_equal.
        unfold detect_block. unfold enabled in Hen.
        destruct (landmarker (models w m)); [by rewrite Hen|done].
      - intros m'. rewrite H6. unfold results_after.
        destruct (decide (m' = m)) as [->|Hne].
        + by rewrite Hen.
        + rewrite (bool_decide_ext (m' ∈ m :: rest) (m' ∈ rest)); [done|].
          rewrite elem_of_cons. tauto.
      - rewrite H7. simpl. by rewrite Hen. }
    simpl. destruct (detect (models w m)) eqn:Hd;
      [|apply Hskip; unfold enabled; rewrite Hd; by destruct (landmarker _)].
    destruct (landmarker (models w m)) as [marker|] eqn:Hl;
      [|apply Hskip; unfold enabled; by rewrite Hl].
    set (w1 := after_await m (oracle m).1
                 (tick (oracle m).2
                    (emit (EDetect m marker (entry_point (models w m)) (startTimeMs fr)) w))).
    assert (Hst : static_eq w w1) by apply static_eq_step.
    destruct (IH w1) as [H1 H2 H3 H4 H5 H6 H7].
    assert (Hen : enabled (models w m) = true) by (unfold enabled; by rewrite Hl).
    split.
    + exact (static_eq_trans _ _ _ Hst H1).
    + rewrite H2. unfold w1, after_await. by rewrite safeSocketSend_eq.
    + rewrite H3. unfold w1, after_await. by rewrite safeSocketSend_eq.
    + rewrite H4. unfold w1, after_await. by rewrite safeSocketSend_eq.
    + rewrite H5, (static_eq_detect_events _ _ _ _ _ Hst).
      change (detect_events oracle w (startTimeMs fr) (m :: rest))
        with (detect_block oracle w (startTimeMs fr) m
                ++ detect_events oracle w (startTimeMs fr) rest).
      unfold detect_block. rewrite Hl, Hd.
      unfold w1 at 1, after_await. rewrite safeSocketSend_eq.
      cbn [trace set_trace set_results set_models tick set_clocks emit models video
           socketState_ws].
      rewrite decide_True by done.
      cbn [results resultsName results_value].
      rewrite <- !(assoc_L (++)). done.
    + intros m'. rewrite H6. unfold results_after.
      rewrite (static_eq_enabled _ _ _ Hst).
      destruct (decide (m' = m)) as [->|Hne].
      * rewrite Hen. rewrite (bool_decide_eq_true_2 (m ∈ m :: rest)) by apply list_elem_of_here.
        simpl. destruct (bool_decide (m ∈ rest)); [done|].
        unfold w1, after_await. rewrite safeSocketSend_eq. simpl.
        by rewrite decide_True.
      * rewrite (bool_decide_ext (m' ∈ m :: rest) (m' ∈ rest))
          by (rewrite elem_of_cons; tauto).
        destruct (enabled (models w m') && bool_decide (m' ∈ rest)); [done|].
        unfold w1, after_await. rewrite safeSocketSend_eq. simpl.
        by rewrite decide_False.
    + rewrite H7, (static_eq_elapsed _ _ _ _ Hst). simpl. rewrite Hen.
      unfold w1, after_await. rewrite safeSocketSend_eq. simpl. lia.
Qed.

Lemma draw_landmarkers_eq ms :
  forall w evs,
    draw_landmarkers ms (set_trace (trace w ++ evs) w)
    = set_trace
        (trace w ++ evs ++ flat_map (draw_block w (fun m => results (models w m))) ms) w.
Proof.
  induction ms as [|m rest IH]; intros w evs; simpl.
  - by rewrite app_nil_r.
  - unfold draw_block at 1.
    destruct (detect (models w m)), (results (models w m)) as [r|]; simpl;
      rewrite ?emit_set_trace, IH, <- ?(assoc_L (++)); done.
Qed.

Lemma epilogue_eq fr w :
  epilogue fr w = set_trace (trace w ++ epilogue_events fr w) w.
Proof.
  unfold epilogue, epilogue_events, draw_events, raf_events.
  assert (Hd : draw_object (objectState fr)
                 (draw_landmarkers landmarkerModelState w)
               = set_trace
                   (trace w
                      ++ flat_map (draw_block w (fun m => results (models w m)))
                           landmarkerModelState
                      ++ object_draw_block w (fun m => results (models w m))
                           (objectState fr)) w).
  { rewrite <- (set_trace_id w) at 1. rewrite <- (app_nil_r (trace w)) at 1.
    rewrite draw_landmarkers_eq. unfold draw_object, object_draw_block. simpl.
    destruct (detect (models w (objectState fr))),
      (results (models w (objectState fr))); simpl;
      rewrite ?emit_set_trace, ?app_nil_r; done. }
  destruct (overlayState_show w).
  - rewrite Hd. simpl.
    destruct (webcamRunning (webcamState w)); rewrite ?emit_set_trace;
      rewrite safeSocketSend_eq; simpl; rewrite <- ?(assoc_L (++)); done.
  - destruct (webcamRunning (webcamState w)); rewrite safeSocketSend_eq; simpl;
      rewrite <- ?(assoc_L (++)); done.
Qed.

Lemma run_frame_eq oracle ams os w :
  size_guard w = false ->
  run_frame oracle ams os w
  = (let fr := {| startDetect := Date_now w; startTimeMs := performance_now w;
                  objectState := os |} in
     if lastVideoTime (webcamState w) =? currentTime (video w)
     then epilogue fr (resize w)
     else epilogue fr
            (run_loop oracle fr ams (set_lastVideoTime (currentTime (video w)) (resize w))),
     None).
Proof.
  unfold size_guard, run_frame, predictWebcam. intros ->. simpl.
  destruct (lastVideoTime (webcamState w) =? currentTime (video w)); simpl.
  - apply drive_done.
  - by apply drive_finish.
Qed.

Lemma run_frame_guarded oracle ams os w :
  size_guard w = true ->
  run_frame oracle ams os w
  = (emit (EConsoleLog [VStr "videoWidth or videoHeight is 0"]) w, None).
Proof.
  unfold size_guard, run_frame, predictWebcam. intros ->. apply drive_done.
Qed.

Lemma static_eq_prepare w t : static_eq w (set_lastVideoTime t (resize w)).
Proof. by repeat split. Qed.

Lemma run_frame_post oracle ams os w :
  size_guard w = false ->
  (run_frame oracle ams os w).2 = None
  /\ frame_post oracle ams os w (run_frame oracle ams os w).1.
Proof.
  intros Hg. rewrite (run_frame_eq _ _ _ _ Hg). split; [done|].
  unfold frame_events. cbn [fst].
  destruct (lastVideoTime (webcamState w) =? currentTime (video w)) eqn:Ht.
  - rewrite epilogue_eq. split; unfold frame_events; rewrite ?Ht; simpl; try done.
    + unfold epilogue_events. simpl. by rewrite Z.sub_diag.
    + by apply Z.eqb_eq.
  - set (fr := {| startDetect := Date_now w; startTimeMs := performance_now w;
                  objectState := os |}).
    set (w0 := set_lastVideoTime (currentTime (video w)) (resize w)).
    pose proof (static_eq_prepare w (currentTime (video w))) as H0. fold w0 in H0.
    destruct (run_loop_post oracle fr ams w0) as [H1 H2 H3 H4 H5 H6 H7].
    set (w1 := run_loop oracle fr ams w0) in *.
    assert (H01 : static_eq w w1) by exact (static_eq_trans w w0 w1 H0 H1).
    assert (Hres : forall m, results (models w1 m) = results_after oracle w ams m).
    { intros m. rewrite H6. unfold results_after.
      by rewrite (static_eq_enabled _ _ _ H0). }
    rewrite epilogue_eq. split; unfold frame_events; rewrite ?Ht; simpl; try done.
    + rewrite H5, (static_eq_detect_events _ _ _ _ _ H0). simpl.
      rewrite <- !(assoc_L (++)). do 2 f_equal.
      unfold epilogue_events. simpl.
      rewrite (static_eq_draw_events w w1 (results_after oracle w ams)
                 (fun m => results (models w1 m)) os H01 Hres).
      f_equal. unfold raf_events, transmit, is_open.
      destruct H01 as (_ & -> & _ & -> & _). f_equal.
      rewrite H7, (static_eq_elapsed _ _ _ _ H0). simpl.
      by replace (Date_now w + elapsed oracle w ams - Date_now w)
        with (elapsed oracle w ams) by lia.
    + by rewrite H2.
Qed.

Lemma new_events_same w : new_events w w = [].
Proof. unfold new_events. apply drop_all. Qed.

Lemma checkDeviceIds_true_iff key deviceIds :
  checkDeviceIds key deviceIds = true
  <-> exists d, d ∈ deviceIds /\ VStr (deviceId d) = key.
Proof.
  induction deviceIds as [|d rest IH]; simpl.
  - split; [done|]. intros (d & Hd & _). by apply elem_of_nil in Hd.
  - destruct (strict_eq_string (deviceId d) key) eqn:He.
    + split; [intros _|done]. exists d. split; [apply list_elem_of_here|].
      destruct key; simpl in He; try done. apply String.eqb_eq in He. by subst.
    + rewrite IH. split.
      * intros (d' & Hd' & Hk). exists d'. split; [by apply list_elem_of_further|done].
      * intros (d' & Hd' & Hk). apply elem_of_cons in Hd' as [->|Hd'].
        -- subst key. simpl in He. by rewrite String.eqb_refl in He.
        -- by exists d'.
Qed.

(** ** The claims *)

(** C4. Given a connection whose [readyState] is not [OPEN],
    [safeSocketSend] does not call [ws.send]: for every payload the world is
    left exactly as it was, so the message is dropped, nothing is kept for a
    later attempt, and no error is raised. *)
Theorem safeSocketSend_not_open (ws : WebSocket) (data : Value) (w : World) :
  readyState ws <> OPEN ->
  safeSocketSend ws data w = w
  /\ sent (new_events w (safeSocketSend ws data w)) = [].
Proof.
  intros Hne. unfold safeSocketSend.
  destruct (readyState ws =? OPEN) eqn:He.
  - apply Z.eqb_eq in He. contradiction.
  - split; [done|]. by rewrite new_events_same.
Qed.

(** C6. [checkDeviceIds key deviceIds] is true exactly when some element of
    [deviceIds] has a [deviceId] equal to [key]; it finds ["abc"] in the list
    of devices ["abc"] and ["xyz"], does not find ["zzz"] there, and finds
    nothing in the empty list. *)
Theorem checkDeviceIds_spec :
  (forall key deviceIds,
      checkDeviceIds key deviceIds = true
      <-> exists d, d ∈ deviceIds /\ VStr (deviceId d) = key)
  /\ (forall l1 l2,
         checkDeviceIds (VStr "abc")
           [ {| deviceId := "abc"; label := l1 |}; {| deviceId := "xyz"; label := l2 |} ]
         = true)
  /\ (forall l1 l2,
         checkDeviceIds (VStr "zzz")
           [ {| deviceId := "abc"; label := l1 |}; {| deviceId := "xyz"; label := l2 |} ]
         = false)
  /\ (forall key, checkDeviceIds key [] = false).
Proof.
  split; [apply checkDeviceIds_true_iff|]. by repeat split.
Qed.

(** C9. When [video.videoWidth] or [video.videoHeight] is 0, [predictWebcam]
    returns at once: it logs one console line and does nothing else.  No
    detection entry point is called, nothing is drawn, no result or timing
    message is sent, no next frame is requested, the invocation is not
    suspended on anything, and no state object is changed, so the chain of
    animation frames ends with this invocation. *)
Theorem predictWebcam_zero_size (ams : list ModelId) (os : ModelId) (w : World) :
  videoWidth (video w) = 0 \/ videoHeight (video w) = 0 ->
  let w' := (predictWebcam ams os w).1 in
  (predictWebcam ams os w).2 = None
  /\ new_events w w' = [EConsoleLog [VStr "videoWidth or videoHeight is 0"]]
  /\ filter is_detect (new_events w w') = []
  /\ filter is_draw (new_events w w') = []
  /\ sent (new_events w w') = []
  /\ filter is_raf (new_events w w') = []
  /\ set_trace (trace w) w' = w.
Proof.
  intros Hz. unfold predictWebcam.
  assert (Hg : (videoWidth (video w) =? 0) || (videoHeight (video w) =? 0) = true).
  { destruct Hz as [-> | ->]; [done|]. by rewrite orb_true_r. }
  rewrite Hg. cbn zeta. cbn [fst snd].
  rewrite (new_events_app w _ [EConsoleLog [VStr "videoWidth or videoHeight is 0"]])
    by apply trace_emit.
  repeat split; try done. unfold emit. rewrite set_trace_twice. apply set_trace_id.
Qed.

Lemma checkDeviceIds_string key deviceIds :
  checkDeviceIds key deviceIds = true -> exists s, key = VStr s.
Proof.
  intros H. apply checkDeviceIds_true_iff in H as (d & _ & <-). by eexists.
Qed.

(** C3. For every inbound message whose [type] is ["selectWebcam"], the
    handler first checks the message's [deviceId] against
    [webcamState.webcamDevices]: [webcamId] becomes the given id when some
    known device has it and keeps its value otherwise, the device list is
    not touched, and the one capture request of the handler is its last
    call and asks for the [webcamId] left by that check. *)
Theorem selectWebcam_validated
    (configMap : gmap string (Value -> World -> World))
    (JSON_parse : string -> option Value)
    (event_data : string) (data ty id : Value) (w : World) :
  event_data <> "ping" -> event_data <> "pong" ->
  JSON_parse event_data = Some data ->
  get_prop data "type" = Some ty ->
  loose_eq_selectWebcam ty = Some true ->
  get_prop data "deviceId" = Some id ->
  let w' := (setupWebSocket_onmessage configMap JSON_parse event_data w).1 in
  let known := checkDeviceIds id (webcamDevices (webcamState w)) in
  (known = true
   <-> exists d, d ∈ webcamDevices (webcamState w) /\ VStr (deviceId d) = id)
  /\ webcamId (webcamState w') = (if known then id else webcamId (webcamState w))
  /\ webcamDevices (webcamState w') = webcamDevices (webcamState w)
  /\ new_events w w'
     = EConsoleLog [VStr "Data received: "; data]
         :: match to_string id with
            | Some s =>
                [ EConsoleLog [VStr ("Got webcamId via WS: " +:+ s)];
                  EGetUserMedia {| c_deviceId := webcamId (webcamState w');
                                   c_height_exact := 720;
                                   c_frameRate_ideal := 60;
                                   c_frameRate_min := 25 |} ]
            | None => []
            end.
Proof.
  intros Hping Hpong Hparse Hty Hsel Hid. cbn zeta.
  split; [apply checkDeviceIds_true_iff|].
  unfold setupWebSocket_onmessage.
  apply String.eqb_neq in Hping, Hpong. rewrite Hping, Hpong. cbn [orb].
  rewrite Hparse, Hty, Hsel, Hid.
  destruct (to_string id) as [s|] eqn:Hs.
  - cbn [fst].
    destruct (checkDeviceIds id (webcamDevices (webcamState w))) eqn:Hk; simpl;
      rewrite Hk; (repeat split; [done..|]); apply new_events_app; simpl;
      by rewrite <- !(assoc_L (++)).
  - cbn [fst].
    destruct (checkDeviceIds id (webcamDevices (webcamState w))) eqn:Hk.
    + apply checkDeviceIds_string in Hk as (s & ->). done.
    + repeat split; [done..|]. by apply new_events_app.
Qed.

Lemma config_call_method configMap value w :
  config_call configMap InheritedMethod value w = (w, Returned).
Proof. done. Qed.

Lemma handleQueryParams_unknown configMap key value before after :
  config_in configMap key = None ->
  forall w,
    handleQueryParams configMap (before ++ (key, value) :: after) w
    = handleQueryParams configMap (before ++ after) w.
Proof.
  intros Hk. induction before as [|[k v] before IH]; intros w; simpl.
  - by rewrite Hk.
  - destruct (config_in configMap k); [|apply IH].
    destruct (config_call configMap _ _ w) as [w' []]; [apply IH|done].
Qed.

Lemma apply_entries_unknown configMap key value before after :
  config_in configMap key = None ->
  forall w,
    apply_entries configMap (before ++ (key, value) :: after) w
    = apply_entries configMap (before ++ after) w.
Proof.
  intros Hk. induction before as [|[k v] before IH]; intros w; simpl.
  - by rewrite Hk.
  - destruct (config_in configMap k); [|apply IH]. destruct (to_string v); [|done].
    destruct (config_call configMap _ _ _) as [w' []]; [apply IH|done].
Qed.

Lemma apply_entries_all_unknown configMap entries :
  Forall (fun kv => config_in configMap kv.1 = None) entries ->
  forall w, apply_entries configMap entries w = (w, Returned).
Proof.
  induction 1 as [|[k v] rest Hk _ IH]; intros w; simpl; [done|].
  simpl in Hk. rewrite Hk. apply IH.
Qed.

Lemma config_in_proto configMap :
  configMap !! "__proto__" = None ->
  config_in configMap "__proto__" = Some InheritedThrowing.
Proof. intros H. unfold config_in. by rewrite H. Qed.

(** C5. The guard [key in configMap] lets through the names every object
    inherits, so a key that is no option is not always ignored.  With no
    option of that name, the query parameter [__proto__] makes
    [handleQueryParams] throw a TypeError, the parameters after it left
    unapplied, and a message field [__proto__] makes the handler log its
    line and throw, the fields after it left unapplied.  What the claim
    says does hold for every key that [in] does not find: such a key can be
    struck from the query string or from the message without changing the
    outcome, alone it returns the world as it was, and a configuration
    message made of such keys only changes no state object. *)
Theorem inherited_key_not_ignored
    (configMap : gmap string (Value -> World -> World))
    (JSON_parse : string -> option Value) :
  configMap !! "__proto__" = None ->
  (forall value rest w,
      handleQueryParams configMap (("__proto__", value) :: rest) w
      = (w, Threw "TypeError"))
  /\ (forall value s rest w,
         to_string value = Some s ->
         apply_entries configMap (("__proto__", value) :: rest) w
         = (emit (EConsoleLog [VStr ("Got WS dats: __proto__ : " +:+ s)]) w,
            Threw "TypeError"))
  /\ (forall event_data value s rest w,
         event_data <> "ping" -> event_data <> "pong" ->
         JSON_parse event_data = Some (VObj (("__proto__", value) :: rest)) ->
         to_string value = Some s ->
         loose_eq_selectWebcam (obj_get rest "type") = Some false ->
         (setupWebSocket_onmessage configMap JSON_parse event_data w).2
         = Threw "TypeError")
  /\ (forall key,
         config_in configMap key = None ->
         (forall value before after w,
             handleQueryParams configMap (before ++ (key, value) :: after) w
             = handleQueryParams configMap (before ++ after) w)
         /\ (forall value before after w,
                apply_entries configMap (before ++ (key, value) :: after) w
                = apply_entries configMap (before ++ after) w)
         /\ (forall value w,
                handleQueryParams configMap [(key, value)] w = (w, Returned))
         /\ (forall value w, apply_entries configMap [(key, value)] w = (w, Returned)))
  /\ (forall event_data fields ty w,
         event_data <> "ping" -> event_data <> "pong" ->
         JSON_parse event_data = Some (VObj fields) ->
         Forall (fun kv => config_in configMap kv.1 = None) fields ->
         get_prop (VObj fields) "type" = Some ty ->
         loose_eq_selectWebcam ty = Some false ->
         let r := setupWebSocket_onmessage configMap JSON_parse event_data w in
         r.2 = Returned
         /\ set_trace (trace w) r.1 = w
         /\ new_events w r.1 = [EConsoleLog [VStr "Data received: "; VObj fields]]).
Proof.
  intros Hp. pose proof (config_in_proto _ Hp) as Hin.
  split; [|split; [|split; [|split]]].
  - intros. simpl. by rewrite Hin.
  - intros value s rest w Hs. simpl. by rewrite Hin, Hs.
  - intros event_data value s rest w Hping Hpong Hparse Hs Hsel.
    unfold setupWebSocket_onmessage.
    apply String.eqb_neq in Hping, Hpong. rewrite Hping, Hpong. cbn [orb].
    rewrite Hparse. simpl. rewrite Hsel. by rewrite Hin, Hs.
  - intros key Hk. split; [|split; [|split]].
    + intros. by apply handleQueryParams_unknown.
    + intros. by apply apply_entries_unknown.
    + intros. simpl. by rewrite Hk.
    + intros. simpl. by rewrite Hk.
  - intros event_data fields ty w Hping Hpong Hparse Hall Hty Hsel. cbn zeta.
    unfold setupWebSocket_onmessage.
    apply String.eqb_neq in Hping, Hpong. rewrite Hping, Hpong. cbn [orb].
    rewrite Hparse, Hty, Hsel. cbn [Object_entries].
    rewrite (apply_entries_all_unknown _ _ Hall).
    cbn [fst snd]. split; [done|]. split.
    + unfold emit. rewrite set_trace_twice. apply set_trace_id.
    + by apply new_events_app.
Qed.

(** ** Re-entrant invocations *)

Lemma detect_loop_world fr ms :
  forall w, exists evs, (detect_loop fr ms w).1 = set_trace (trace w ++ evs) w.
Proof.
  induction ms as [|m rest IH]; intros w; simpl.
  - exists []. by rewrite app_nil_r, set_trace_id.
  - destruct (detect (models w m)); [|apply IH].
    destruct (landmarker (models w m)); [|apply IH].
    by eexists [_].
Qed.

Lemma finish_world fr ms w :
  exists evs, (finish fr (detect_loop fr ms w)).1 = set_trace (trace w ++ evs) w.
Proof.
  destruct (detect_loop_world fr ms w) as (evs & He).
  destruct (detect_loop fr ms w) as [w' [s|]]; simpl in *.
  - by exists evs.
  - rewrite epilogue_eq, He. simpl. eexists. by rewrite <- (assoc_L (++)).
Qed.

Lemma resume_keeps s r w :
  webcamState (predictWebcam_resume s r w).1 = webcamState w
  /\ video (predictWebcam_resume s r w).1 = video w.
Proof.
  unfold predictWebcam_resume.
  destruct (finish_world (s_frame s) (s_rest s) (after_await (s_pending s) r w))
    as (evs & ->).
  unfold after_await. by rewrite safeSocketSend_eq.
Qed.

Lemma epilogue_events_no_detect fr w : filter is_detect (epilogue_events fr w) = [].
Proof.
  unfold epilogue_events, draw_events, raf_events, transmit.
  rewrite !filter_app.
  assert (Hd : forall ms,
             filter is_detect (flat_map (draw_block w (fun m => results (models w m))) ms)
             = []).
  { induction ms as [|m rest IH]; [done|]. simpl. rewrite filter_app, IH.
    unfold draw_block. by destruct (results (models w m)), (detect (models w m)). }
  destruct (overlayState_show w), (webcamRunning (webcamState w)), (is_open w);
    rewrite ?filter_app, ?Hd; unfold object_draw_block;
    by destruct (results (models w (objectState fr))), (detect (models w (objectState fr))).
Qed.

(** An invocation that finds [video.currentTime] equal to [lastVideoTime]
    calls no detection entry point and does not suspend. *)
Lemma predictWebcam_skip ams os w :
  lastVideoTime (webcamState w) = currentTime (video w) ->
  let w' := (predictWebcam ams os w).1 in
  (predictWebcam ams os w).2 = None
  /\ filter is_detect (new_events w w') = []
  /\ models w' = models w
  /\ webcamState w' = webcamState w
  /\ video w' = video w.
Proof.
  intros Ht. cbn zeta. unfold predictWebcam.
  destruct ((videoWidth (video w) =? 0) || (videoHeight (video w) =? 0)).
  - cbn [fst snd]. rewrite (new_events_app w _ [EConsoleLog [VStr "videoWidth or videoHeight is 0"]])
      by apply trace_emit. done.
  - cbn zeta. change (lastVideoTime (webcamState (resize w))) with (lastVideoTime (webcamState w)).
    change (video (resize w)) with (video w).
    rewrite Ht, Z.eqb_refl. cbn [negb fst snd]. rewrite epilogue_eq.
    split; [done|]. split; [|done].
    erewrite new_events_app; [apply epilogue_events_no_detect|done].
Qed.

Lemma predictWebcam_sets_time ams os w :
  size_guard w = false ->
  lastVideoTime (webcamState (predictWebcam ams os w).1) = currentTime (video w)
  /\ video (predictWebcam ams os w).1 = video w.
Proof.
  unfold size_guard, predictWebcam. intros ->. cbn zeta.
  change (lastVideoTime (webcamState (resize w))) with (lastVideoTime (webcamState w)).
  change (video (resize w)) with (video w).
  destruct (lastVideoTime (webcamState w) =? currentTime (video w)) eqn:Ht; cbn [negb].
  - cbn [fst]. rewrite epilogue_eq. split; [|done]. by apply Z.eqb_eq.
  - match goal with
    | |- context [finish ?fr (detect_loop ?fr ?ms ?w0)] =>
        destruct (finish_world fr ms w0) as (evs & ->)
    end. done.
Qed.

Lemma detect_loop_suspended fr ms :
  forall w s,
    (detect_loop fr ms w).2 = Some s ->
    exists marker ep ts,
      (detect_loop fr ms w).1 = emit (EDetect (s_pending s) marker ep ts) w.
Proof.
  induction ms as [|m rest IH]; intros w s; simpl; [done|].
  destruct (detect (models w m)); [|apply IH].
  destruct (landmarker (models w m)) as [marker|]; [|apply IH].
  simpl. intros [= <-]. simpl. by do 3 eexists.
Qed.

Lemma detect_loop_finished fr ms :
  forall w, (detect_loop fr ms w).2 = None -> (detect_loop fr ms w).1 = w.
Proof.
  induction ms as [|m rest IH]; intros w; simpl; [done|].
  destruct (detect (models w m)); [|apply IH].
  destruct (landmarker (models w m)); [done|apply IH].
Qed.

Lemma finish_suspended fr st s : (finish fr st).2 = Some s -> finish fr st = st.
Proof. by destruct st as [w [s'|]]. Qed.

Lemma predictWebcam_first_call ams os w s :
  (predictWebcam ams os w).2 = Some s ->
  exists marker ep ts,
    new_events w (predictWebcam ams os w).1 = [EDetect (s_pending s) marker ep ts].
Proof.
  unfold predictWebcam.
  destruct ((videoWidth (video w) =? 0) || (videoHeight (video w) =? 0)); [done|].
  cbn zeta. destruct (negb _); [|done].
  intros Hs. rewrite (finish_suspended _ _ _ Hs) in Hs |- *.
  destruct (detect_loop_suspended _ _ _ _ Hs) as (marker & ep & ts & ->).
  exists marker, ep, ts. by apply new_events_app.
Qed.

(** C10 (amended). In every frame that passes the size guard, and so in
    every processed frame, [lastVideoTime] already holds [video.currentTime]
    at the point where the invocation stops for its first detection call,
    and that call is all it has done by then.  Consequently an invocation
    that sees the same [video.currentTime] while the frame is in flight
    skips the detection block entirely, as long as [lastVideoTime] still
    holds that value: it calls no detection entry point, suspends on
    nothing and leaves the registry and [lastVideoTime] as they are.
    [lastVideoTime] keeps its value when a result is delivered to any
    suspended invocation and when an invocation starts at the time last
    processed; only an invocation that processes another video time
    changes it. *)
Theorem lastVideoTime_set_before_await (ams : list ModelId) (os : ModelId) (w : World) :
  size_guard w = false ->
  let w1 := (predictWebcam ams os w).1 in
  lastVideoTime (webcamState w1) = currentTime (video w)
  /\ (forall s, (predictWebcam ams os w).2 = Some s ->
                exists marker ep ts,
                  new_events w w1 = [EDetect (s_pending s) marker ep ts])
  /\ (forall w2,
         lastVideoTime (webcamState w2) = lastVideoTime (webcamState w1) ->
         currentTime (video w2) = currentTime (video w) ->
         forall ams' os',
           let w3 := (predictWebcam ams' os' w2).1 in
           (predictWebcam ams' os' w2).2 = None
           /\ filter is_detect (new_events w2 w3) = []
           /\ models w3 = models w2
           /\ lastVideoTime (webcamState w3) = lastVideoTime (webcamState w2))
  /\ (forall s r w2,
         lastVideoTime (webcamState (predictWebcam_resume s r w2).1)
         = lastVideoTime (webcamState w2))
  /\ (forall ams' os' w2,
         currentTime (video w2) = lastVideoTime (webcamState w2) ->
         lastVideoTime (webcamState (predictWebcam ams' os' w2).1)
         = lastVideoTime (webcamState w2)).
Proof.
  intros Hg. cbn zeta.
  destruct (predictWebcam_sets_time ams os w Hg) as [Hlast Hvideo].
  split; [done|]. split; [apply predictWebcam_first_call|].
  split; [|split].
  - intros w2 Hkept Hsame ams' os'.
    assert (Ht : lastVideoTime (webcamState w2) = currentTime (video w2))
      by (by rewrite Hkept, Hlast).
    destruct (predictWebcam_skip ams' os' w2 Ht) as (H1 & H2 & H3 & H4 & _).
    by rewrite H4.
  - intros s r w2. by destruct (resume_keeps s r w2) as [-> _].
  - intros ams' os' w2 Ht.
    by destruct (predictWebcam_skip ams' os' w2 (eq_sym Ht)) as (_ & _ & _ & -> & _).
Qed.

(** ** Frame callbacks at an unchanged video time *)

Lemma draw_events_only_draw w res os :
  filter is_detect (draw_events w res os) = []
  /\ filter is_raf (draw_events w res os) = []
  /\ sent (draw_events w res os) = []
  /\ filter is_draw (draw_events w res os) = draw_events w res os.
Proof.
  unfold draw_events. destruct (overlayState_show w); [|done].
  rewrite !filter_app, sent_app.
  assert (Hl : forall ms,
             filter is_detect (flat_map (draw_block w res) ms) = []
             /\ filter is_raf (flat_map (draw_block w res) ms) = []
             /\ sent (flat_map (draw_block w res) ms) = []
             /\ filter is_draw (flat_map (draw_block w res) ms)
                = flat_map (draw_block w res) ms).
  { induction ms as [|m rest (H1 & H2 & H3 & H4)]; [done|]. simpl.
    rewrite !filter_app, sent_app, H1, H2, H3, H4. unfold draw_block.
    by destruct (res m), (detect (models w m)). }
  destruct (Hl landmarkerModelState) as (-> & -> & -> & ->).
  unfold object_draw_block. by destruct (res os), (detect (models w os)).
Qed.







(** ** Outbound messages of a frame *)

Lemma sent_transmit w data : sent (transmit w data) = if is_open w then [data] else [].
Proof. unfold transmit. by destruct (is_open w). Qed.

Lemma sent_detect_events oracle w ts ms :
  sent (detect_events oracle w ts ms)
  = if is_open w
    then map (outbound_result oracle w) (filter (fun m => enabled (models w m)) ms)
    else [].
Proof.
  unfold detect_events. induction ms as [|m rest IH]; simpl.
  - by destruct (is_open w).
  - rewrite sent_app, IH. unfold detect_block, enabled at 2.
    destruct (landmarker (models w m)) as [marker|] eqn:Hl.
    + destruct (detect (models w m)) eqn:Hd.
      * rewrite filter_cons_True by (unfold enabled; by rewrite Hl, Hd).
        unfold transmit. by destruct (is_open w).
      * rewrite filter_cons_False by (unfold enabled; rewrite Hl, Hd; intros []).
        by destruct (is_open w).
    + rewrite filter_cons_False by (unfold enabled; rewrite Hl; intros []).
      by destruct (is_open w).
Qed.

Lemma after_draw_no_detect w res os data :
  filter is_detect (draw_events w res os ++ raf_events w ++ transmit w data) = [].
Proof.
  rewrite !filter_app.
  destruct (draw_events_only_draw w res os) as (-> & _).
  unfold raf_events, transmit.
  by destruct (webcamRunning (webcamState w)), (is_open w).
Qed.

Lemma after_await_events m r w :
  new_events w (after_await m r w)
  = transmit w (result_message (resultsName (models w m)) (VResult r)
                  (videoWidth (video w)) (videoHeight (video w))).
Proof.
  apply new_events_app. unfold after_await. rewrite safeSocketSend_eq.
  cbn [trace set_trace set_results set_models models video]. rewrite decide_True by done.
  done.
Qed.

(** C1 (amended). For every frame that passes the size guard and every
    subset of enabled models, the loop hands [safeSocketSend] exactly one
    result message per enabled model when the frame is processed, each
    [{[resultsName]: results, resolution: {width, height}}] and each
    directly after that model's detection call, and exactly one timing
    message whether or not the time check skipped detection.  What reaches
    the wire is all of these, in this order, when the connection is open and
    nothing when it is not. *)
Theorem frame_messages (oracle : Oracle) (w : World) :
  size_guard w = false ->
  let r := run_frame oracle allModelState Object w in
  let skipped := lastVideoTime (webcamState w) =? currentTime (video w) in
  r.2 = None
  /\ sent (new_events w r.1)
     = (if is_open w
        then (if skipped then []
              else map (outbound_result oracle w)
                     (filter (fun m => enabled (models w m)) allModelState))
               ++ [timing_message (if skipped then 0 else elapsed oracle w allModelState)]
        else [])
  /\ (skipped = false ->
      exists rest,
        new_events w r.1
        = flat_map (detect_block oracle w (performance_now w)) allModelState ++ rest
        /\ filter is_detect rest = [])
  /\ (forall m res w0,
         new_events w0 (after_await m res w0)
         = transmit w0 (result_message (resultsName (models w0 m)) (VResult res)
                          (videoWidth (video w0)) (videoHeight (video w0)))).
Proof.
  intros Hg. cbn zeta.
  destruct (run_frame_post oracle allModelState Object w Hg) as (Hdone & [_ Htr _ _]).
  rewrite (new_events_app _ _ _ Htr).
  split; [done|]. split; [|split; [|apply after_await_events]].
  - unfold frame_events.
    destruct (lastVideoTime (webcamState w) =? currentTime (video w));
      rewrite !sent_app, ?sent_detect_events, !sent_transmit;
      match goal with
      | |- context [sent (draw_events ?w ?res ?os)] =>
          destruct (draw_events_only_draw w res os) as (_ & _ & -> & _)
      end;
      unfold raf_events;
      by destruct (is_open w), (webcamRunning (webcamState w)).
  - intros Hs. unfold frame_events. rewrite Hs. eexists. split; [done|].
    apply after_draw_no_detect.
Qed.

(** ** Order of the calls of a frame *)

Lemma entry_point_gesture w m :
  gesture_named w ->
  entry_point (models w m)
  = if decide (m = Gesture) then recognizeForVideo else detectForVideo.
Proof.
  intros Hn. unfold entry_point.
  destruct (String.eqb (resultsName (models w m)) "gestureResults") eqn:He.
  - apply String.eqb_eq, Hn in He. by rewrite decide_True.
  - apply String.eqb_neq in He. rewrite decide_False; [done|].
    intros Hm. by apply He, Hn.
Qed.

Lemma detect_events_calls oracle w ts ms :
  gesture_named w ->
  filter is_detect (detect_events oracle w ts ms) = flat_map (detect_call w ts) ms
  /\ filter is_draw (detect_events oracle w ts ms) = [].
Proof.
  intros Hn. unfold detect_events.
  induction ms as [|m rest [IH1 IH2]]; [done|]. simpl.
  rewrite !filter_app, IH1, IH2. unfold detect_block, detect_call, transmit.
  rewrite (entry_point_gesture _ _ Hn).
  by destruct (landmarker (models w m)), (detect (models w m)), (is_open w).
Qed.

Lemma draw_events_registry w res :
  draw_events w res Object
  = if overlayState_show w then flat_map (registry_draw w res) allModelState else [].
Proof.
  unfold draw_events. destruct (overlayState_show w); [|done].
  unfold allModelState, landmarkerModelState, draw_block, object_draw_block, registry_draw.
  cbn [flat_map]. rewrite !app_nil_r, <- !(assoc_L (++)).
  by repeat (f_equal; [by destruct (res _), (detect _)|]).
Qed.

Lemma transmit_no_call w data :
  filter is_detect (transmit w data) = [] /\ filter is_draw (transmit w data) = []
  /\ filter is_raf (transmit w data) = [].
Proof. unfold transmit. by destruct (is_open w). Qed.

Lemma resume_calls s res w0 :
  match (predictWebcam_resume s res w0).2 with
  | Some s' =>
      exists marker ep ts,
        filter is_detect (new_events w0 (predictWebcam_resume s res w0).1)
        = [EDetect (s_pending s') marker ep ts]
        /\ filter is_draw (new_events w0 (predictWebcam_resume s res w0).1) = []
  | None => filter is_detect (new_events w0 (predictWebcam_resume s res w0).1) = []
  end.
Proof.
  unfold predictWebcam_resume.
  set (w1 := after_await (s_pending s) res w0).
  assert (H1 : exists data, trace w1 = trace w0 ++ transmit w0 data).
  { unfold w1, after_await. rewrite safeSocketSend_eq. simpl. by eexists. }
  destruct H1 as (data & H1).
  destruct (transmit_no_call w0 data) as (Hd & Hw & _).
  destruct (detect_loop (s_frame s) (s_rest s) w1) as [w2 [s'|]] eqn:Hl.
  - simpl. pose proof (detect_loop_suspended (s_frame s) (s_rest s) w1 s') as Hs.
    rewrite Hl in Hs. destruct (Hs eq_refl) as (marker & ep & ts & Hw2). simpl in Hw2.
    exists marker, ep, ts.
    rewrite (new_events_app w0 w2 (transmit w0 data ++ [EDetect (s_pending s') marker ep ts]))
      by (rewrite Hw2; simpl; by rewrite H1, <- (assoc_L (++))).
    by rewrite !filter_app, Hd, Hw.
  - simpl. pose proof (detect_loop_finished (s_frame s) (s_rest s) w1) as Hf.
    rewrite Hl in Hf. simpl in Hf. rewrite (Hf eq_refl), epilogue_eq.
    rewrite (new_events_app w0 _ (transmit w0 data ++ epilogue_events (s_frame s) w1))
      by (simpl; by rewrite H1, <- (assoc_L (++))).
    by rewrite filter_app, Hd, epilogue_events_no_detect.
Qed.

(** C7. Within a processed frame the calls come in three parts: first the
    detection calls of the enabled models in registry order, each followed
    by the transmission of its result, then the draw calls, then the rest.
    No draw call is made in the first part and no detection call after it;
    a suspended invocation issues its next detection call only when the
    previous result has been delivered, one at a time, and has drawn nothing
    by then.  The draw calls follow the registry order, the object entry
    being drawn by its own [draw()] and the others by [draw(results,
    drawingUtils)], and the gesture entry is the one dispatched through
    [recognizeForVideo], every other through [detectForVideo]. *)
Theorem detection_before_drawing (oracle : Oracle) (w : World) :
  size_guard w = false ->
  lastVideoTime (webcamState w) <> currentTime (video w) ->
  gesture_named w ->
  let r := run_frame oracle allModelState Object w in
  let detection := detect_events oracle w (performance_now w) allModelState in
  let drawing := draw_events w (results_after oracle w allModelState) Object in
  (exists rest,
      new_events w r.1 = detection ++ drawing ++ rest
      /\ filter is_detect rest = [] /\ filter is_draw rest = [])
  /\ filter is_draw detection = []
  /\ filter is_detect drawing = []
  /\ filter is_detect (new_events w r.1)
     = flat_map (detect_call w (performance_now w)) allModelState
  /\ filter is_draw (new_events w r.1)
     = (if overlayState_show w
        then flat_map (registry_draw w (results_after oracle w allModelState)) allModelState
        else [])
  /\ (forall s res w0,
         match (predictWebcam_resume s res w0).2 with
         | Some s' =>
             exists marker ep ts,
               filter is_detect (new_events w0 (predictWebcam_resume s res w0).1)
               = [EDetect (s_pending s') marker ep ts]
               /\ filter is_draw (new_events w0 (predictWebcam_resume s res w0).1) = []
         | None =>
             filter is_detect (new_events w0 (predictWebcam_resume s res w0).1) = []
         end).
Proof.
  intros Hg Ht Hn. cbn zeta.
  destruct (run_frame_post oracle allModelState Object w Hg) as (_ & [_ Htr _ _]).
  rewrite (new_events_app _ _ _ Htr). unfold frame_events.
  apply Z.eqb_neq in Ht. rewrite Ht.
  destruct (detect_events_calls oracle w (performance_now w) allModelState Hn) as [Hc Hnd].
  destruct (draw_events_only_draw w (results_after oracle w allModelState) Object)
    as (Hdd & Hdr & _ & Hdw).
  destruct (transmit_no_call w (timing_message (elapsed oracle w allModelState)))
    as (Ht1 & Ht2 & _).
  assert (Hraf : filter is_detect (raf_events w) = [] /\ filter is_draw (raf_events w) = []).
  { unfold raf_events. by destruct (webcamRunning (webcamState w)). }
  destruct Hraf as [Hr1 Hr2].
  split; [|split; [done|split; [done|split; [|split]]]].
  - eexists. split; [done|]. by rewrite !filter_app, Hr1, Hr2, Ht1, Ht2.
  - by rewrite !filter_app, Hc, Hdd, Hr1, Ht1, !app_nil_r.
  - rewrite !filter_app, Hnd, Hdw, Hr2, Ht2, !app_nil_r. simpl.
    apply draw_events_registry.
  - apply resume_calls.
Qed.

(** ** Rescheduling *)

Lemma detect_loop_running b fr ms :
  forall w,
    detect_loop fr ms (set_webcamRunning b w)
    = (set_webcamRunning b (detect_loop fr ms w).1, (detect_loop fr ms w).2).
Proof.
  induction ms as [|m rest IH]; intros w; simpl; [done|].
  destruct (detect (models w m)); [|apply IH].
  destruct (landmarker (models w m)); [done|apply IH].
Qed.

Lemma after_await_running b m r w :
  after_await m r (set_webcamRunning b w) = set_webcamRunning b (after_await m r w).
Proof.
  unfold after_await. rewrite !safeSocketSend_eq. done.
Qed.

Lemma epilogue_events_running b fr w :
  filter not_raf (epilogue_events fr (set_webcamRunning b w))
  = filter not_raf (epilogue_events fr w).
Proof.
  unfold epilogue_events. rewrite !filter_app. f_equal. f_equal.
  unfold raf_events. simpl.
  by destruct b, (webcamRunning (webcamState w)).
Qed.

Lemma resume_running b s r w :
  (predictWebcam_resume s r (set_webcamRunning b w)).2 = (predictWebcam_resume s r w).2
  /\ filter not_raf
       (new_events (set_webcamRunning b w) (predictWebcam_resume s r (set_webcamRunning b w)).1)
     = filter not_raf (new_events w (predictWebcam_resume s r w).1).
Proof.
  unfold predictWebcam_resume. rewrite after_await_running, detect_loop_running.
  set (w1 := after_await (s_pending s) r w).
  assert (H1 : exists evs, trace w1 = trace w ++ evs).
  { unfold w1, after_await. rewrite safeSocketSend_eq. simpl. by eexists. }
  destruct H1 as (evs1 & H1).
  destruct (detect_loop_world (s_frame s) (s_rest s) w1) as (evs & He).
  destruct (detect_loop (s_frame s) (s_rest s) w1) as [w2 [s'|]]; simpl in *.
  - split; [done|]. subst w2. unfold new_events. simpl. done.
  - split; [done|]. subst w2. rewrite !epilogue_eq.
    rewrite (new_events_app w _ (evs1 ++ evs ++ epilogue_events (s_frame s) (set_trace (trace w1 ++ evs) w1)))
      by (simpl; by rewrite H1, <- !(assoc_L (++))).
    rewrite (new_events_app (set_webcamRunning b w) _
               (evs1 ++ evs ++ epilogue_events (s_frame s)
                                 (set_webcamRunning b (set_trace (trace w1 ++ evs) w1))))
      by (simpl; by rewrite H1, <- !(assoc_L (++))).
    by rewrite !filter_app, epilogue_events_running.
Qed.

Lemma frame_events_running b oracle ams os w :
  filter not_raf (frame_events oracle ams os (set_webcamRunning b w))
  = filter not_raf (frame_events oracle ams os w).
Proof.
  assert (Hraf : filter not_raf (raf_events (set_webcamRunning b w))
                 = filter not_raf (raf_events w)).
  { unfold raf_events. simpl. by destruct b, (webcamRunning (webcamState w)). }
  unfold frame_events.
  change (lastVideoTime (webcamState (set_webcamRunning b w)))
    with (lastVideoTime (webcamState w)).
  change (video (set_webcamRunning b w)) with (video w).
  destruct (lastVideoTime (webcamState w) =? currentTime (video w));
    rewrite !filter_app, Hraf; reflexivity.
Qed.

Lemma frame_events_raf oracle ams os w :
  filter is_raf (frame_events oracle ams os w)
  = if webcamRunning (webcamState w) then [ERequestAnimationFrame] else [].
Proof.
  unfold frame_events.
  assert (Hd : forall ts, filter is_raf (detect_events oracle w ts ams) = []).
  { intros ts. unfold detect_events. induction ams as [|m rest IH]; [done|]. simpl.
    rewrite filter_app, IH. unfold detect_block, transmit.
    by destruct (landmarker (models w m)), (detect (models w m)), (is_open w). }
  assert (Hw : forall res, filter is_raf (draw_events w res os) = []).
  { intros res. by destruct (draw_events_only_draw w res os) as (_ & -> & _). }
  assert (Ht : forall d, filter is_raf (transmit w d) = []).
  { intros d. by destruct (transmit_no_call w d) as (_ & _ & ->). }
  destruct (lastVideoTime (webcamState w) =? currentTime (video w));
    rewrite !filter_app, ?Hd, Hw, Ht, app_nil_r; unfold raf_events;
    by destruct (webcamRunning (webcamState w)).
Qed.

Lemma epilogue_events_raf fr w :
  filter is_raf (epilogue_events fr w)
  = if webcamRunning (webcamState w) then [ERequestAnimationFrame] else [].
Proof.
  unfold epilogue_events. rewrite !filter_app.
  destruct (draw_events_only_draw w (fun m => results (models w m)) (objectState fr))
    as (_ & -> & _).
  destruct (transmit_no_call w (timing_message (Date_now w - startDetect fr)))
    as (_ & _ & ->).
  unfold raf_events. by destruct (webcamRunning (webcamState w)).
Qed.

(** The request for the next frame is decided where a frame ends, by the
    flag as it is then. *)
Lemma finish_raf fr ms w0 w1 evs :
  trace w1 = trace w0 ++ evs ->
  filter is_raf evs = [] ->
  webcamRunning (webcamState w1) = webcamRunning (webcamState w0) ->
  filter is_raf (new_events w0 (finish fr (detect_loop fr ms w1)).1)
  = match (finish fr (detect_loop fr ms w1)).2 with
    | Some _ => []
    | None => if webcamRunning (webcamState w0) then [ERequestAnimationFrame] else []
    end.
Proof.
  intros Htr Hevs Hrun.
  destruct (detect_loop fr ms w1) as [w2 [s'|]] eqn:Hl.
  - pose proof (detect_loop_suspended fr ms w1 s') as Hs. rewrite Hl in Hs.
    destruct (Hs eq_refl) as (marker & ep & ts & Hw2). simpl in Hw2. simpl.
    rewrite (new_events_app w0 w2 (evs ++ [EDetect (s_pending s') marker ep ts]))
      by (rewrite Hw2; simpl; by rewrite Htr, <- (assoc_L (++))).
    by rewrite filter_app, Hevs.
  - pose proof (detect_loop_finished fr ms w1) as Hf. rewrite Hl in Hf. simpl in Hf.
    simpl. rewrite (Hf eq_refl), epilogue_eq.
    rewrite (new_events_app w0 _ (evs ++ epilogue_events fr w1))
      by (simpl; by rewrite Htr, <- (assoc_L (++))).
    by rewrite filter_app, Hevs, epilogue_events_raf, Hrun.
Qed.

Lemma resume_raf s res w0 :
  filter is_raf (new_events w0 (predictWebcam_resume s res w0).1)
  = match (predictWebcam_resume s res w0).2 with
    | Some _ => []
    | None => if webcamRunning (webcamState w0) then [ERequestAnimationFrame] else []
    end.
Proof.
  unfold predictWebcam_resume.
  assert (H1 : exists data,
             trace (after_await (s_pending s) res w0) = trace w0 ++ transmit w0 data
             /\ webcamRunning (webcamState (after_await (s_pending s) res w0))
                = webcamRunning (webcamState w0)).
  { unfold after_await. rewrite safeSocketSend_eq. simpl. by eexists. }
  destruct H1 as (data & Htr & Hrun).
  apply (finish_raf _ _ _ _ _ Htr); [|done].
  by destruct (transmit_no_call w0 data) as (_ & _ & ->).
Qed.

Lemma start_raf ams os w0 :
  size_guard w0 = false ->
  filter is_raf (new_events w0 (predictWebcam ams os w0).1)
  = match (predictWebcam ams os w0).2 with
    | Some _ => []
    | None => if webcamRunning (webcamState w0) then [ERequestAnimationFrame] else []
    end.
Proof.
  intros Hg. unfold size_guard in Hg. unfold predictWebcam. rewrite Hg. cbn zeta.
  destruct (negb _).
  - apply (finish_raf _ _ _ _ []); [by rewrite app_nil_r|done|done].
  - cbn [fst snd]. rewrite epilogue_eq.
    erewrite new_events_app; [|done]. by rewrite epilogue_events_raf.
Qed.

(** C8 (amended). At the end of every loop iteration that passes the size
    guard, the loop requests the next animation frame exactly when
    [webcamRunning] is true; an iteration stopped by the size guard requests
    none, whatever the flag.  The flag is read at that step and nowhere
    else in a frame.  An invocation, started or resumed, requests nothing
    as long as it ends suspended on a detection call, and when it reaches
    the end of the frame it requests the next one exactly when the flag is
    true in the state the page is in at that moment: a flag cleared while
    the frame was suspended drops the request, one set meanwhile makes it.
    And with the flag changed, at the start of a frame or while the frame
    is suspended on a detection call, the frame makes the same calls and
    suspends at the same places, the request for the next frame apart. *)
Theorem reschedule_iff_running (oracle : Oracle) (ams : list ModelId) (os : ModelId)
    (w : World) :
  size_guard w = false ->
  let r := run_frame oracle ams os w in
  r.2 = None
  /\ filter is_raf (new_events w r.1)
     = (if webcamRunning (webcamState w) then [ERequestAnimationFrame] else [])
  /\ (forall b,
         filter not_raf
           (new_events (set_webcamRunning b w)
              (run_frame oracle ams os (set_webcamRunning b w)).1)
         = filter not_raf (new_events w r.1))
  /\ (forall b s res w0,
         (predictWebcam_resume s res (set_webcamRunning b w0)).2
         = (predictWebcam_resume s res w0).2
         /\ filter not_raf
              (new_events (set_webcamRunning b w0)
                 (predictWebcam_resume s res (set_webcamRunning b w0)).1)
            = filter not_raf (new_events w0 (predictWebcam_resume s res w0).1))
  /\ (forall w0,
         size_guard w0 = true ->
         filter is_raf (new_events w0 (run_frame oracle ams os w0).1) = [])
  /\ (forall s res w0,
         filter is_raf (new_events w0 (predictWebcam_resume s res w0).1)
         = match (predictWebcam_resume s res w0).2 with
           | Some _ => []
           | None =>
               if webcamRunning (webcamState w0) then [ERequestAnimationFrame] else []
           end)
  /\ (forall w0,
         size_guard w0 = false ->
         filter is_raf (new_events w0 (predictWebcam ams os w0).1)
         = match (predictWebcam ams os w0).2 with
           | Some _ => []
           | None =>
               if webcamRunning (webcamState w0) then [ERequestAnimationFrame] else []
           end)
  /\ (forall b s res w0,
         (predictWebcam_resume s res (set_webcamRunning b w0)).2 = None ->
         filter is_raf
           (new_events (set_webcamRunning b w0)
              (predictWebcam_resume s res (set_webcamRunning b w0)).1)
         = if b then [ERequestAnimationFrame] else []).
Proof.
  intros Hg. cbn zeta.
  destruct (run_frame_post oracle ams os w Hg) as (Hdone & [_ Htr _ _]).
  rewrite (new_events_app _ _ _ Htr).
  split; [done|]. split; [apply frame_events_raf|].
  split; [|split; [|split; [|split; [|split]]]].
  - intros b.
    destruct (run_frame_post oracle ams os (set_webcamRunning b w) Hg) as (_ & [_ Htr' _ _]).
    rewrite (new_events_app _ _ _ Htr'). apply frame_events_running.
  - intros. apply resume_running.
  - intros w0 Hg0. rewrite (run_frame_guarded _ _ _ _ Hg0). cbn [fst].
    by erewrite new_events_app; [|apply trace_emit].
  - apply resume_raf.
  - intros w0 Hg0. by apply start_raf.
  - intros b s res w0 Hend. rewrite resume_raf, Hend. done.
Qed.

(** ** The claims on the concrete session *)

Lemma example_gesture_named : gesture_named example_world.
Proof. intros m. by destruct m. Qed.

Lemma safeSocketSend_not_open_witness :
  safeSocketSend {| readyState := 0 |} (timing_message 5) example_world = example_world
  /\ sent (new_events example_world
             (safeSocketSend {| readyState := 0 |} (timing_message 5) example_world)) = [].
Proof. apply safeSocketSend_not_open. simpl. unfold OPEN. lia. Defined.

Lemma predictWebcam_zero_size_witness :
  videoWidth (video emptied_world) = 0
  /\ (predictWebcam allModelState Object emptied_world).2 = None.
Proof.
  split; [reflexivity|].
  apply (predictWebcam_zero_size allModelState Object emptied_world).
  left. reflexivity.
Defined.

Lemma selectWebcam_validated_witness :
  webcamId (webcamState
              (setupWebSocket_onmessage example_configMap example_parse "select"
                 example_world).1)
  = VStr "cam1".
Proof.
  refine (proj1 (proj2 (selectWebcam_validated example_configMap example_parse "select"
                          example_select (VStr "selectWebcam") (VStr "cam1") example_world
                          _ _ _ _ _ _))); [discriminate | discriminate | reflexivity..].
Defined.

Lemma inherited_key_not_ignored_witness :
  example_configMap !! "__proto__" = None
  /\ handleQueryParams example_configMap [("__proto__", "1"); ("Showoverlays", "0")]
       example_world
     = (example_world, Threw "TypeError").
Proof.
  assert (H : example_configMap !! "__proto__" = None) by (vm_compute; reflexivity).
  split; [exact H|].
  apply (inherited_key_not_ignored example_configMap example_parse H).
Defined.

Lemma lastVideoTime_set_before_await_witness :
  size_guard example_world = false
  /\ lastVideoTime (webcamState (predictWebcam allModelState Object example_world).1) = 0.
Proof.
  split; [reflexivity|].
  exact (proj1 (lastVideoTime_set_before_await allModelState Object example_world
                  eq_refl)).
Defined.


Lemma frame_messages_witness :
  size_guard example_world = false
  /\ sent (new_events example_world
             (run_frame example_oracle allModelState Object example_world).1)
     = [ result_message "handResults" (VResult 11%nat) 1280 720;
         result_message "gestureResults" (VResult 12%nat) 1280 720;
         result_message "objectResults" (VResult 13%nat) 1280 720;
         timing_message 15 ].
Proof.
  split; [reflexivity|].
  apply (frame_messages example_oracle example_world). reflexivity.
Defined.

Lemma detection_before_drawing_witness :
  size_guard example_world = false
  /\ filter is_detect
       (new_events example_world
          (run_frame example_oracle allModelState Object example_world).1)
     = [ EDetect Hand 7%nat detectForVideo 50;
         EDetect Gesture 7%nat recognizeForVideo 50;
         EDetect Object 7%nat detectForVideo 50 ].
Proof.
  split; [reflexivity|].
  refine (proj1 (proj2 (proj2 (proj2
            (detection_before_drawing example_oracle example_world _ _ _)))));
    [reflexivity | simpl; lia | exact example_gesture_named].
Defined.

Lemma reschedule_iff_running_witness :
  size_guard example_world = false
  /\ filter is_raf
       (new_events example_world
          (run_frame example_oracle allModelState Object example_world).1)
     = [ERequestAnimationFrame].
Proof.
  split; [reflexivity|].
  exact (proj1 (proj2 (reschedule_iff_running example_oracle allModelState Object
                         example_world eq_refl))).
Defined.

(** With the connection still connecting, a processed frame with three
    enabled models runs to its end and nothing is sent: no result message
    and no timing message.  And with the connection open, a frame callback
    that finds the video element empty sends no timing message either. *)
Lemma frame_messages_counterexample :
  (is_open emptied_world = true
   /\ sent (new_events emptied_world
              (run_frame example_oracle allModelState Object emptied_world).1) = [])
  /\ size_guard connecting_world = false
  /\ lastVideoTime (webcamState connecting_world) <> currentTime (video connecting_world)
  /\ filter (fun m => enabled (models connecting_world m)) allModelState
     = [Hand; Gesture; Object]
  /\ (run_frame example_oracle allModelState Object connecting_world).2 = None
  /\ sent (new_events connecting_world
             (run_frame example_oracle allModelState Object connecting_world).1) = [].
Proof. vm_compute. repeat split; congruence. Qed.


(** With [webcamRunning] true and the video element empty, the iteration
    ends without requesting the next animation frame. *)
Lemma emptied_video_not_rescheduled :
  webcamRunning (webcamState emptied_world) = true
  /\ (run_frame example_oracle allModelState Object emptied_world).2 = None
  /\ filter is_raf
       (new_events emptied_world
          (run_frame example_oracle allModelState Object emptied_world).1) = [].
Proof. vm_compute. repeat split; congruence. Qed.

(** ** Devices: enumeration, announcement, selection *)

Lemma getWebcamDevices_elem devices p (d : DeviceInfo) :
  d ∈ (getWebcamDevices (inl devices) p).1
  <-> exists md, md ∈ devices /\ md_kind md = "videoinput"
                 /\ d = {| deviceId := md_deviceId md; label := md_label md |}.
Proof.
  simpl. rewrite list_elem_of_fmap. split.
  - intros (md & -> & Hmd). apply list_elem_of_filter in Hmd as [Hk Hmd]. by exists md.
  - intros (md & Hmd & Hk & ->). exists md. split; [done|]. by apply list_elem_of_filter.
Qed.

(** X1. The list [getWebcamDevices] returns accepts, under
    [checkDeviceIds], exactly the ids of the enumerated devices of kind
    ["videoinput"], and the page is left as it was; when enumeration fails
    the list is empty, so that no id at all is accepted. *)
Theorem getWebcamDevices_accepts :
  (forall devices p key,
      (checkDeviceIds key (getWebcamDevices (inl devices) p).1 = true
       <-> exists md, md ∈ devices /\ md_kind md = "videoinput"
                      /\ VStr (md_deviceId md) = key)
      /\ (getWebcamDevices (inl devices) p).2 = p)
  /\ (forall error p key,
         checkDeviceIds key (getWebcamDevices (inr error) p).1 = false
         /\ backgroundColor (getWebcamDevices (inr error) p).2 = Some "red"
         /\ world (getWebcamDevices (inr error) p).2 = world p).
Proof.
  split; [|done].
  intros devices p key. split; [|done].
  rewrite checkDeviceIds_true_iff. split.
  - intros (d & Hd & Hk). apply getWebcamDevices_elem in Hd as (md & Hmd & Hkind & ->).
    by exists md.
  - intros (md & Hmd & Hkind & Hk).
    exists {| deviceId := md_deviceId md; label := md_label md |}.
    split; [|done]. apply getWebcamDevices_elem. by exists md.
Qed.

Lemma onmessage_select configMap JSON_parse event_data data (id : string) w :
  event_data <> "ping" -> event_data <> "pong" ->
  JSON_parse event_data = Some data ->
  get_prop data "type" = Some (VStr "selectWebcam") ->
  get_prop data "deviceId" = Some (VStr id) ->
  setupWebSocket_onmessage configMap JSON_parse event_data w
  = (let w2 := emit (EConsoleLog [VStr ("Got webcamId via WS: " +:+ id)])
                 (emit (EConsoleLog [VStr "Data received: "; data]) w) in
     enableCam (if checkDeviceIds (VStr id) (webcamDevices (webcamState w))
                then set_webcamId (VStr id) w2 else w2),
     Returned).
Proof.
  intros Hping Hpong Hparse Hty Hid. unfold setupWebSocket_onmessage.
  apply String.eqb_neq in Hping, Hpong. rewrite Hping, Hpong. cbn [orb].
  by rewrite Hparse, Hty, Hid.
Qed.

(** X2. Every camera on the list [getWebcamDevices] returned can be
    selected when that list is the one stored in [webcamState]: a
    [selectWebcam] message carrying its [deviceId] sets [webcamId] to it and
    ends with a capture request for that very id. *)
Theorem listed_device_selectable
    (configMap : gmap string (Value -> World -> World))
    (JSON_parse : string -> option Value)
    (enumerated : list MediaDeviceInfo + Value) (p : Page) (d : DeviceInfo)
    (event_data : string) (data : Value) (w : World) :
  webcamDevices (webcamState w) = (getWebcamDevices enumerated p).1 ->
  d ∈ (getWebcamDevices enumerated p).1 ->
  event_data <> "ping" -> event_data <> "pong" ->
  JSON_parse event_data = Some data ->
  get_prop data "type" = Some (VStr "selectWebcam") ->
  get_prop data "deviceId" = Some (VStr (deviceId d)) ->
  let r := setupWebSocket_onmessage configMap JSON_parse event_data w in
  r.2 = Returned
  /\ webcamId (webcamState r.1) = VStr (deviceId d)
  /\ last (trace r.1)
     = Some (EGetUserMedia {| c_deviceId := VStr (deviceId d); c_height_exact := 720;
                              c_frameRate_ideal := 60; c_frameRate_min := 25 |}).
Proof.
  intros Hdev Hd Hping Hpong Hparse Hty Hid. cbn zeta.
  rewrite (onmessage_select _ _ _ _ _ _ Hping Hpong Hparse Hty Hid).
  assert (Hk : checkDeviceIds (VStr (deviceId d)) (webcamDevices (webcamState w)) = true).
  { apply checkDeviceIds_true_iff. exists d. by rewrite Hdev. }
  rewrite Hk. cbn [fst snd]. split; [done|]. split; [done|].
  unfold enableCam. rewrite trace_emit. by rewrite last_snoc.
Qed.

(** X3. The ['open'] listener and the continuation of its
    [getWebcamDevices] call hand [ws.send] two payloads, ["pong"] and then
    the list of the cameras enumerated at that moment, and change no state
    object: [webcamState.webcamDevices] keeps the list stored by [setup].
    So a camera that is announced without being on the stored list is
    refused when selected: the [selectWebcam] message for it leaves
    [webcamId] as it was. *)
Theorem open_announces_without_storing
    (configMap : gmap string (Value -> World -> World))
    (JSON_parse : string -> option Value)
    (devices : list MediaDeviceInfo) (p : Page) :
  let p' := setupWebSocket_onopen_devices (inl devices) (setupWebSocket_onopen p) in
  sent (new_events (world p) (world p'))
  = [VStr "pong"; devices_message (getWebcamDevices (inl devices) p).1]
  /\ set_trace (trace (world p)) (world p') = world p
  /\ (forall md event_data data,
         md ∈ devices -> md_kind md = "videoinput" ->
         (forall d, d ∈ webcamDevices (webcamState (world p)) ->
                    deviceId d <> md_deviceId md) ->
         event_data <> "ping" -> event_data <> "pong" ->
         JSON_parse event_data = Some data ->
         get_prop data "type" = Some (VStr "selectWebcam") ->
         get_prop data "deviceId" = Some (VStr (md_deviceId md)) ->
         device_value {| deviceId := md_deviceId md; label := md_label md |}
           ∈ device_value <$> (getWebcamDevices (inl devices) p).1
         /\ webcamId (webcamState
                        (setupWebSocket_onmessage configMap JSON_parse event_data
                           (world p')).1)
            = webcamId (webcamState (world p))).
Proof.
  cbn zeta. split; [|split].
  - erewrite new_events_app; [|simpl; by rewrite <- !(assoc_L (++))]. done.
  - simpl. unfold emit. rewrite !set_trace_twice. apply set_trace_id.
  - intros md event_data data Hmd Hkind Hnew Hping Hpong Hparse Hty Hid. split.
    + apply list_elem_of_fmap. eexists. split; [done|].
      apply getWebcamDevices_elem. by exists md.
    + rewrite (onmessage_select _ _ _ _ _ _ Hping Hpong Hparse Hty Hid).
      cbn [fst]. simpl.
      destruct (checkDeviceIds (VStr (md_deviceId md))
                  (webcamDevices (webcamState (world p)))) eqn:Hk; [|done].
      apply checkDeviceIds_true_iff in Hk as (d & Hd & [= Hk]).
      by destruct (Hnew d Hd).
Qed.

(** ** Inbound messages that are not configuration *)

(** X4. A message that is a keep-alive string, is not JSON, or is the JSON
    of [null], a number or a boolean changes no state object, requests no
    capture and sends nothing.  The keep-alive strings are not even parsed
    or logged, text that does not parse throws the parser's error before
    anything is logged, [null] throws when its [type] is read, and numbers
    and booleans return normally. *)
Theorem inert_messages
    (configMap : gmap string (Value -> World -> World))
    (JSON_parse : string -> option Value) (event_data : string) (w : World) :
  event_data = "ping" \/ event_data = "pong"
  \/ JSON_parse event_data = None
  \/ JSON_parse event_data = Some VNull
  \/ (exists n, JSON_parse event_data = Some (VNum n))
  \/ (exists b, JSON_parse event_data = Some (VBool b)) ->
  let r := setupWebSocket_onmessage configMap JSON_parse event_data w in
  set_trace (trace w) r.1 = w
  /\ filter is_capture (new_events w r.1) = []
  /\ sent (new_events w r.1) = []
  /\ (event_data = "ping" \/ event_data = "pong" -> r = (w, Returned))
  /\ (event_data <> "ping" -> event_data <> "pong" ->
      r = match JSON_parse event_data with
          | None => (w, Threw "SyntaxError")
          | Some VNull =>
              (emit (EConsoleLog [VStr "Data received: "; VNull]) w, Threw "TypeError")
          | Some data =>
              (emit (EConsoleLog [VStr "Data received: "; data]) w, Returned)
          end).
Proof.
  intros H. cbn zeta. unfold setupWebSocket_onmessage.
  destruct (String.eqb event_data "ping") eqn:Hping.
  { cbn [orb fst snd]. rewrite new_events_same. apply String.eqb_eq in Hping.
    repeat split; try done. apply set_trace_id. }
  destruct (String.eqb event_data "pong") eqn:Hpong.
  { cbn [orb fst snd]. rewrite new_events_same. apply String.eqb_eq in Hpong.
    repeat split; try done. apply set_trace_id. }
  apply String.eqb_neq in Hping, Hpong. cbn [orb].
  assert (Hlog : forall data,
             set_trace (trace w) (emit (EConsoleLog [VStr "Data received: "; data]) w) = w
             /\ new_events w (emit (EConsoleLog [VStr "Data received: "; data]) w)
                = [EConsoleLog [VStr "Data received: "; data]]).
  { intros data. split; [unfold emit; rewrite set_trace_twice; apply set_trace_id|].
    by apply new_events_app. }
  destruct H as [H|[H|[H|[H|[[n H]|[b H]]]]]]; try done; rewrite H; simpl;
    rewrite ?new_events_same;
    try (destruct (Hlog VNull) as [-> ->]);
    try (destruct (Hlog (VNum n)) as [-> ->]);
    try (destruct (Hlog (VBool b)) as [-> ->]);
    repeat split; try done; try apply set_trace_id; by intros [?|?].
Qed.

(** X5. A [selectWebcam] message is never applied as configuration: whatever
    else it carries and whatever the table of options holds, the handler
    does the same, so no setter is called for any of its fields. *)
Theorem select_ignores_config
    (configMap configMap' : gmap string (Value -> World -> World))
    (JSON_parse : string -> option Value)
    (event_data : string) (data ty : Value) (w : World) :
  JSON_parse event_data = Some data ->
  get_prop data "type" = Some ty ->
  loose_eq_selectWebcam ty = Some true ->
  setupWebSocket_onmessage configMap JSON_parse event_data w
  = setupWebSocket_onmessage configMap' JSON_parse event_data w.
Proof.
  intros Hparse Hty Hsel. unfold setupWebSocket_onmessage.
  destruct (String.eqb event_data "ping" || String.eqb event_data "pong"); [done|].
  by rewrite Hparse, Hty, Hsel.
Qed.

(** ** Configuration patches *)

Lemma apply_entries_app configMap before after :
  forall w,
    apply_entries configMap (before ++ after) w
    = match apply_entries configMap before w with
      | (w', Returned) => apply_entries configMap after w'
      | (w', Threw e) => (w', Threw e)
      end.
Proof.
  induction before as [|[k v] before IH]; intros w; simpl; [done|].
  destruct (config_in configMap k); [|apply IH]. destruct (to_string v); [|done].
  destruct (config_call configMap _ _ _) as [w' []]; [apply IH|done].
Qed.

Lemma handleQueryParams_app configMap before after :
  forall w,
    handleQueryParams configMap (before ++ after) w
    = match handleQueryParams configMap before w with
      | (w', Returned) => handleQueryParams configMap after w'
      | (w', Threw e) => (w', Threw e)
      end.
Proof.
  induction before as [|[k v] before IH]; intros w; simpl; [done|].
  destruct (config_in configMap k); [|apply IH].
  destruct (config_call configMap _ _ w) as [w' []]; [apply IH|done].
Qed.

(** X6. A configuration patch is not applied as a whole.  When the value of
    a known option cannot be converted to a string for the log line, the
    handler throws at that entry: the entries before it stay applied, its
    own setter is not called, and the entries after it are not looked at. *)
Theorem patch_stops_at_throw
    (configMap : gmap string (Value -> World -> World))
    (before after : list (string * Value)) (key : string) (value : Value) (w : World) :
  is_Some (configMap !! key) ->
  to_string value = None ->
  (apply_entries configMap before w).2 = Returned ->
  apply_entries configMap (before ++ (key, value) :: after) w
  = ((apply_entries configMap before w).1, Threw "TypeError").
Proof.
  intros [setter Hk] Hv Hbefore. rewrite apply_entries_app.
  destruct (apply_entries configMap before w) as [w' o]. simpl in Hbefore. subst o.
  simpl. unfold config_in. by rewrite Hk, Hv.
Qed.

Lemma known_entries_cons {A} configMap (k : string) (v : A) entries :
  known_entries configMap ((k, v) :: entries)
  = match config_in configMap k with
    | Some _ => (k, v) :: known_entries configMap entries
    | None => known_entries configMap entries
    end.
Proof.
  unfold known_entries. destruct (config_in configMap k) eqn:Hk.
  - by rewrite filter_cons_True by (simpl; rewrite Hk; by eexists).
  - by rewrite filter_cons_False by (simpl; rewrite Hk; by intros [? ?]).
Qed.

(** X7. The query string acts only through the parameters whose name [in]
    finds in [configMap], an option or a name inherited from
    [Object.prototype], from left to right and up to the first exception:
    the parameters of any other name can all be struck at once, and a query
    string in two parts acts as the first part followed, unless that part
    threw, by the second.  The same striking holds for the fields of a
    configuration message. *)
Theorem config_known_in_order (configMap : gmap string (Value -> World -> World)) :
  (forall urlParams w,
      handleQueryParams configMap urlParams w
      = handleQueryParams configMap (known_entries configMap urlParams) w)
  /\ (forall before after w,
         handleQueryParams configMap (before ++ after) w
         = match handleQueryParams configMap before w with
           | (w', Returned) => handleQueryParams configMap after w'
           | (w', Threw e) => (w', Threw e)
           end)
  /\ (forall entries w,
         apply_entries configMap entries w
         = apply_entries configMap (known_entries configMap entries) w).
Proof.
  split; [|split].
  - induction urlParams as [|[k v] rest IH]; intros w; [done|].
    rewrite known_entries_cons. simpl. destruct (config_in configMap k) eqn:Hk; simpl.
    + rewrite Hk. destruct (config_call configMap _ _ w) as [w' []]; [apply IH|done].
    + apply IH.
  - intros. apply handleQueryParams_app.
  - induction entries as [|[k v] rest IH]; intros w; [done|].
    rewrite known_entries_cons. simpl. destruct (config_in configMap k) eqn:Hk; simpl.
    + rewrite Hk. destruct (to_string v); [|done].
      destruct (config_call configMap _ _ _) as [w' []]; [apply IH|done].
    + apply IH.
Qed.

(** ** Callbacks due at the same moment *)

Lemma predictWebcam_world ams os w :
  exists evs c o t,
    (predictWebcam ams os w).1
    = set_trace (trace w ++ evs) (set_lastVideoTime t (set_surfaces c o w))
    /\ (size_guard w = true ->
        evs = [EConsoleLog [VStr "videoWidth or videoHeight is 0"]]
        /\ t = lastVideoTime (webcamState w)
        /\ c = canvasElement w /\ o = objectsDiv w)
    /\ (size_guard w = false -> t = currentTime (video w)).
Proof.
  unfold size_guard, predictWebcam.
  destruct ((videoWidth (video w) =? 0) || (videoHeight (video w) =? 0)).
  - exists [EConsoleLog [VStr "videoWidth or videoHeight is 0"]],
      (canvasElement w), (objectsDiv w), (lastVideoTime (webcamState w)).
    split; [|done]. by destruct w as [? [] ? ? ? ? ? ? ? ?].
  - cbn zeta.
    change (lastVideoTime (webcamState (resize w))) with (lastVideoTime (webcamState w)).
    change (video (resize w)) with (video w).
    destruct (lastVideoTime (webcamState w) =? currentTime (video w)) eqn:Ht; cbn [negb].
    + cbn [fst]. rewrite epilogue_eq. apply Z.eqb_eq in Ht.
      match goal with
      | |- context [epilogue_events ?fr (resize w)] =>
          exists (epilogue_events fr (resize w))
      end.
      exists (canvasElement (resize w)), (objectsDiv (resize w)), (currentTime (video w)).
      split; [|done]. rewrite <- Ht. by destruct w as [? [] ? ? ? ? ? ? ? ?].
    + match goal with
      | |- context [finish ?fr (detect_loop ?fr ?ms ?w0)] =>
          destruct (finish_world fr ms w0) as (evs & ->)
      end.
      exists evs, (canvasElement (resize w)), (objectsDiv (resize w)),
        (currentTime (video w)).
      done.
Qed.

Lemma predictWebcam_skip_events ams os w :
  size_guard w = false ->
  lastVideoTime (webcamState w) = currentTime (video w) ->
  new_events w (predictWebcam ams os w).1
  = draw_events w (fun m => results (models w m)) os
      ++ raf_events w ++ transmit w (timing_message 0).
Proof.
  intros Hg Ht. unfold size_guard in Hg. unfold predictWebcam. rewrite Hg. cbn zeta.
  change (lastVideoTime (webcamState (resize w))) with (lastVideoTime (webcamState w)).
  change (video (resize w)) with (video w).
  rewrite Ht, Z.eqb_refl. cbn [negb fst]. rewrite epilogue_eq.
  erewrite new_events_app; [|done].
  unfold epilogue_events. simpl. by rewrite Z.sub_diag.
Qed.

Lemma count_raf_after_draw w res os data :
  count_raf (draw_events w res os ++ raf_events w ++ transmit w data)
  = if webcamRunning (webcamState w) then 1%nat else 0%nat.
Proof.
  unfold count_raf. rewrite !filter_app.
  destruct (draw_events_only_draw w res os) as (_ & -> & _).
  destruct (transmit_no_call w data) as (_ & _ & ->).
  unfold raf_events. by destruct (webcamRunning (webcamState w)).
Qed.

Lemma fire_quiet k :
  forall w,
    size_guard w = true \/ lastVideoTime (webcamState w) = currentTime (video w) ->
    exists evs,
      trace (fire k w).1 = trace w ++ evs
      /\ filter is_detect evs = []
      /\ (fire k w).2 = []
      /\ count_raf evs
         = if size_guard w then 0%nat
           else if webcamRunning (webcamState w) then k else 0%nat.
Proof.
  induction k as [|k IH]; intros w Hw.
  - exists []. simpl. rewrite app_nil_r.
    by destruct (size_guard w), (webcamRunning (webcamState w)).
  - cbn [fire].
    destruct (predictWebcam_world allModelState Object w) as (evs0 & c & o & t & Hw1 & Hz & Hn).
    assert (Hskip : (predictWebcam allModelState Object w).2 = None
                    /\ filter is_detect evs0 = []
                    /\ count_raf evs0
                       = if size_guard w then 0%nat
                         else if webcamRunning (webcamState w) then 1%nat else 0%nat).
    { destruct (size_guard w) eqn:Hg.
      - destruct (Hz eq_refl) as (-> & _). split; [|done].
        unfold size_guard in Hg. unfold predictWebcam. by rewrite Hg.
      - destruct Hw as [|Ht]; [done|].
        destruct (predictWebcam_skip allModelState Object w Ht) as (H1 & H2 & _).
        pose proof (predictWebcam_skip_events allModelState Object w Hg Ht) as He.
        rewrite Hw1 in H2, He.
        rewrite (new_events_app w _ evs0) in H2, He by done.
        split; [done|]. split; [done|]. rewrite He. apply count_raf_after_draw. }
    destruct Hskip as (Hnone & Hd0 & Hr0).
    set (w1 := (predictWebcam allModelState Object w).1) in *.
    assert (Hg1 : size_guard w1 = size_guard w) by (by rewrite Hw1).
    assert (Hrun : webcamRunning (webcamState w1) = webcamRunning (webcamState w))
      by (by rewrite Hw1).
    destruct (IH w1) as (evs & He & Hd & Hs & Hr).
    { destruct (size_guard w) eqn:Hg; [by left|right].
      rewrite Hw1. simpl. by rewrite (Hn eq_refl). }
    exists (evs0 ++ evs). cbn [fst snd]. rewrite He, Hs, Hnone.
    split; [rewrite Hw1; simpl; by rewrite <- (assoc_L (++))|].
    split; [by rewrite filter_app, Hd0, Hd|]. split; [done|].
    unfold count_raf in *. rewrite filter_app, length_app, Hr0, Hr, Hg1, Hrun.
    by destruct (size_guard w), (webcamRunning (webcamState w)).
Qed.

(** X8. When several frame callbacks are due at the same moment (one per
    ['loadeddata'] listener, or one per pending animation-frame request),
    only the first of them can dispatch detection and only the first can be
    left waiting on a detection call; past the size guard with
    [webcamRunning] set, each of the others requests its own next frame, so
    that the callbacks never merge into one chain. *)
Theorem simultaneous_callbacks (k : nat) (w : World) :
  let first := predictWebcam allModelState Object w in
  let all := fire (S k) w in
  filter is_detect (new_events w all.1) = filter is_detect (new_events w first.1)
  /\ all.2 = option_list first.2
  /\ count_raf (new_events first.1 all.1)
     = if size_guard w then 0%nat
       else if webcamRunning (webcamState w) then k else 0%nat.
Proof.
  cbn zeta. cbn [fire].
  destruct (predictWebcam_world allModelState Object w) as (evs0 & c & o & t & Hw1 & Hz & Hn).
  set (w1 := (predictWebcam allModelState Object w).1) in *.
  destruct (fire_quiet k w1) as (evs & He & Hd & Hs & Hr).
  { destruct (size_guard w) eqn:Hg; [left|right]; rewrite Hw1; [done|].
    simpl. by rewrite (Hn eq_refl). }
  cbn [fst snd]. rewrite Hs, app_nil_r.
  rewrite (new_events_app w1 _ evs He).
  rewrite (new_events_app w _ (evs0 ++ evs))
    by (rewrite He, Hw1; simpl; by rewrite <- (assoc_L (++))).
  rewrite (new_events_app w w1 evs0) by (by rewrite Hw1).
  split; [by rewrite filter_app, Hd, app_nil_r|]. split; [done|].
  rewrite Hr. by rewrite Hw1.
Qed.

(** ** What a frame leaves alone *)

Lemma frame_events_models oracle ams os w :
  Forall (fun e => forall m, event_model e = Some m -> m ∈ ams \/ m ∈ landmarkerModelState)
    (frame_events oracle ams os w).
Proof.
  assert (Hdet : forall ts,
             Forall (fun e => forall m, event_model e = Some m ->
                                        m ∈ ams \/ m ∈ landmarkerModelState)
               (detect_events oracle w ts ams)).
  { intros ts. unfold detect_events.
    assert (H : forall ms,
               Forall (fun e => forall m, event_model e = Some m -> m ∈ ms)
                 (flat_map (detect_block oracle w ts) ms)).
    { induction ms as [|m rest IH]; [constructor|]. simpl. apply Forall_app. split.
      - unfold detect_block, transmit.
        destruct (landmarker (models w m)), (detect (models w m)), (is_open w);
          simpl; rewrite ?Forall_cons, ?Forall_nil; simpl; repeat split; try done;
          intros ? [= <-]; apply list_elem_of_here.
      - eapply Forall_impl; [exact IH|]. intros e He m' Hm'.
        apply list_elem_of_further. by apply He. }
    eapply Forall_impl; [apply H|]. intros e He m Hm. left. by apply He. }
  assert (Hdraw : forall res,
             Forall (fun e => forall m, event_model e = Some m ->
                                        m ∈ ams \/ m ∈ landmarkerModelState)
               (draw_events w res os)).
  { intros res. unfold draw_events. destruct (overlayState_show w); [|constructor].
    apply Forall_app. split.
    - assert (H : forall ms,
                 Forall (fun e => forall m, event_model e = Some m -> m ∈ ms)
                   (flat_map (draw_block w res) ms)).
      { induction ms as [|m rest IH]; [constructor|]. simpl. apply Forall_app. split.
        - unfold draw_block. destruct (res m), (detect (models w m));
            simpl; rewrite ?Forall_cons, ?Forall_nil; simpl; repeat split; try done;
            intros ? [= <-]; apply list_elem_of_here.
        - eapply Forall_impl; [exact IH|]. intros e He m' Hm'.
          apply list_elem_of_further. by apply He. }
      eapply Forall_impl; [apply H|]. intros e He m Hm. right. by apply He.
    - unfold object_draw_block. destruct (res os), (detect (models w os));
        simpl; rewrite ?Forall_cons, ?Forall_nil; simpl; repeat split; done. }
  assert (Hrest : forall data,
             Forall (fun e => forall m, event_model e = Some m ->
                                        m ∈ ams \/ m ∈ landmarkerModelState)
               (raf_events w ++ transmit w data)).
  { intros data. unfold raf_events, transmit.
    destruct (webcamRunning (webcamState w)), (is_open w);
      simpl; rewrite ?Forall_cons, ?Forall_nil; simpl; repeat split; done. }
  unfold frame_events.
  destruct (lastVideoTime (webcamState w) =? currentTime (video w));
    repeat (apply Forall_app; split; [solve [auto]|]); auto.
Qed.

Lemma ModelState_eq (a b : ModelState) :
  detect a = detect b -> landmarker a = landmarker b ->
  results a = results b -> resultsName a = resultsName b -> a = b.
Proof. destruct a, b; simpl; congruence. Qed.

(** X9. The face detector, which [setup] loads but neither registry array
    holds, takes no part in any frame: whatever its [detect] flag and its
    adapter, no detection call and no draw call is made for it and its state
    object is left as it was. *)
Theorem faceDetector_unused (oracle : Oracle) (w : World) :
  let r := run_frame oracle allModelState Object w in
  Forall (fun e => event_model e <> Some FaceDetector) (new_events w r.1)
  /\ models r.1 FaceDetector = models w FaceDetector.
Proof.
  cbn zeta. destruct (size_guard w) eqn:Hg.
  - rewrite (run_frame_guarded _ _ _ _ Hg). cbn [fst].
    erewrite new_events_app; [|apply trace_emit]. split; [|done].
    rewrite Forall_cons, Forall_nil. done.
  - destruct (run_frame_post oracle allModelState Object w Hg) as (_ & [Hs Htr _ Hres]).
    rewrite (new_events_app _ _ _ Htr). split.
    + eapply Forall_impl; [apply frame_events_models|].
      intros e He Hm. destruct (He _ Hm) as [H|H];
        unfold allModelState, landmarkerModelState in H;
        repeat (apply elem_of_cons in H as [H|H]; [done|]); by apply elem_of_nil in H.
    + destruct Hs as (Hm & _). destruct (Hm FaceDetector) as (Hd & Hl & Hn).
      apply ModelState_eq; try done. rewrite Hres. unfold results_after.
      rewrite bool_decide_eq_false_2, andb_false_r; [by destruct (_ =? _)|].
      unfold allModelState. intros H.
      repeat (apply elem_of_cons in H as [H|H]; [done|]). by apply elem_of_nil in H.
Qed.

Lemma resized_past_guard (e : Surface) (w : World) :
  size_guard w = false ->
  resized e (video w)
  = {| style_width := style_width e; style_height := style_height e;
       width := videoWidth (video w); height := videoHeight (video w) |}.
Proof.
  unfold size_guard, resized, set_style_length. intros Hg.
  apply orb_false_iff in Hg as [-> ->]. done.
Qed.

(** X10. After every frame that passes the size guard, also one that skips
    detection, the [width] and [height] properties of the canvas and of the
    objects layer are those of the video, while their [style.width] and
    [style.height] are as they were before the frame: the numbers assigned
    to them are not lengths.  A frame stopped by the guard leaves both
    elements as they were. *)
Theorem surfaces_follow_video (oracle : Oracle) (ams : list ModelId) (os : ModelId)
    (w : World) :
  let r := run_frame oracle ams os w in
  let sized (e : Surface) :=
    {| style_width := style_width e; style_height := style_height e;
       width := videoWidth (video w); height := videoHeight (video w) |} in
  (size_guard w = false ->
   canvasElement r.1 = sized (canvasElement w) /\ objectsDiv r.1 = sized (objectsDiv w))
  /\ (size_guard w = true ->
      canvasElement r.1 = canvasElement w /\ objectsDiv r.1 = objectsDiv w).
Proof.
  cbn zeta. split; intros Hg.
  - rewrite (run_frame_eq _ _ _ _ Hg). cbn zeta. cbn [fst].
    rewrite <- !(resized_past_guard _ _ Hg).
    destruct (lastVideoTime (webcamState w) =? currentTime (video w)).
    + by rewrite epilogue_eq.
    + rewrite epilogue_eq. cbn [canvasElement objectsDiv set_trace].
      match goal with
      | |- context [run_loop oracle ?fr ams ?w0] =>
          destruct (run_loop_post oracle fr ams w0) as [_ _ -> -> _ _ _]
      end.
      done.
  - by rewrite (run_frame_guarded _ _ _ _ Hg).
Qed.

Lemma draw_events_not_draw w res os : filter not_draw (draw_events w res os) = [].
Proof.
  unfold draw_events. destruct (overlayState_show w); [|done].
  rewrite filter_app.
  assert (H : forall ms, filter not_draw (flat_map (draw_block w res) ms) = []).
  { induction ms as [|m rest IH]; [done|]. simpl. rewrite filter_app, IH.
    unfold draw_block. by destruct (res m), (detect (models w m)). }
  rewrite H. unfold object_draw_block. by destruct (res os), (detect (models w os)).
Qed.

Lemma frame_events_overlay b oracle ams os w :
  filter not_draw (frame_events oracle ams os (set_overlayState_show b w))
  = filter not_draw (frame_events oracle ams os w).
Proof.
  unfold frame_events.
  change (lastVideoTime (webcamState (set_overlayState_show b w)))
    with (lastVideoTime (webcamState w)).
  change (video (set_overlayState_show b w)) with (video w).
  destruct (lastVideoTime (webcamState w) =? currentTime (video w));
    rewrite !filter_app, !draw_events_not_draw; reflexivity.
Qed.

Lemma detect_events_no_draw oracle w ts ms :
  filter is_draw (detect_events oracle w ts ms) = [].
Proof.
  unfold detect_events. induction ms as [|m rest IH]; [done|]. simpl.
  rewrite filter_app, IH. unfold detect_block, transmit.
  by destruct (landmarker (models w m)), (detect (models w m)), (is_open w).
Qed.

Lemma rest_no_draw w data : filter is_draw (raf_events w ++ transmit w data) = [].
Proof.
  unfold raf_events, transmit.
  by destruct (webcamRunning (webcamState w)), (is_open w).
Qed.

(** X11. The overlay toggle gates drawing and nothing else: with
    [overlayState.show] false a frame makes no draw call, and whatever the
    toggle is set to, the frame makes the same other calls (detection,
    transmissions, the request for the next frame) and stores the same
    results. *)
Theorem overlay_only_gates_drawing (b : bool) (oracle : Oracle) (ams : list ModelId)
    (os : ModelId) (w : World) :
  size_guard w = false ->
  let r := run_frame oracle ams os w in
  let r' := run_frame oracle ams os (set_overlayState_show b w) in
  filter not_draw (new_events (set_overlayState_show b w) r'.1)
  = filter not_draw (new_events w r.1)
  /\ (forall m, results (models r'.1 m) = results (models r.1 m))
  /\ (b = false -> filter is_draw (new_events (set_overlayState_show b w) r'.1) = []).
Proof.
  intros Hg. cbn zeta.
  destruct (run_frame_post oracle ams os w Hg) as (_ & [_ Htr _ Hres]).
  destruct (run_frame_post oracle ams os (set_overlayState_show b w) Hg)
    as (_ & [_ Htr' _ Hres']).
  rewrite (new_events_app _ _ _ Htr), (new_events_app _ _ _ Htr').
  split; [apply frame_events_overlay|]. split.
  - intros m. by rewrite Hres, Hres'.
  - intros ->. unfold frame_events.
    change (lastVideoTime (webcamState (set_overlayState_show false w)))
      with (lastVideoTime (webcamState w)).
    change (video (set_overlayState_show false w)) with (video w).
    destruct (lastVideoTime (webcamState w) =? currentTime (video w)).
    + rewrite filter_app, rest_no_draw. done.
    + rewrite filter_app, detect_events_no_draw, filter_app, rest_no_draw. done.
Qed.

(** X12. When the result of a detection call is delivered, in whatever
    state the page then is, it is stored in the registry entry whose call
    was pending and in no other; the entry's flag, adapter and name, the
    capture state, the video element, the connection, the overlay toggle,
    the two sized elements and the clocks are left as they are. *)
Theorem resume_stores_result (s : Suspended) (r : Result) (w : World) :
  let w' := (predictWebcam_resume s r w).1 in
  models w' (s_pending s)
  = {| detect := detect (models w (s_pending s));
       landmarker := landmarker (models w (s_pending s));
       results := Some r;
       resultsName := resultsName (models w (s_pending s)) |}
  /\ (forall m, m <> s_pending s -> models w' m = models w m)
  /\ webcamState w' = webcamState w
  /\ video w' = video w
  /\ socketState_ws w' = socketState_ws w
  /\ overlayState_show w' = overlayState_show w
  /\ canvasElement w' = canvasElement w
  /\ objectsDiv w' = objectsDiv w
  /\ Date_now w' = Date_now w
  /\ performance_now w' = performance_now w.
Proof.
  cbn zeta. unfold predictWebcam_resume.
  destruct (finish_world (s_frame s) (s_rest s) (after_await (s_pending s) r w))
    as (evs & ->).
  unfold after_await. rewrite safeSocketSend_eq. simpl.
  rewrite decide_True by done. repeat split; try done.
  intros m Hm. by rewrite decide_False.
Qed.

(** ** [setup] *)

Ltac setup_cases configMap input p :=
  unfold setup, and_then, create, setupWebSocket_call;
  destruct (handleQueryParams configMap (in_urlParams input) (world p)) as [wq oq];
  cbn [fst snd] in *; subst;
  destruct (in_enumerated input) as [devices|error];
  cbn [getWebcamDevices];
  repeat case_match; simplify_eq.

(** X13. When the query string is applied without an exception, every model
    loads and the [WebSocket] constructor accepts the address, [setup] runs
    to its end: each of the six state objects holds the adapter created for
    it and is otherwise as the query string left it, [webcamDevices] holds
    the enumerated cameras (none, with the page turned red, when
    enumeration failed), the connection has been opened to the given
    address and is still connecting, no ['loadeddata'] listener is installed
    yet, and apart from one console line the only call made is the capture
    request, which is the last thing [setup] does and asks for the
    [webcamId] the query string left. *)
Theorem setup_completes
    (configMap : gmap string (Value -> World -> World))
    (input : SetupInput) (p : Page) :
  (handleQueryParams configMap (in_urlParams input) (world p)).2 = Returned ->
  (forall m, is_Some (in_create input m)) ->
  in_socket_accepted input = true ->
  let w1 := (handleQueryParams configMap (in_urlParams input) (world p)).1 in
  let r := setup configMap input p in
  r.2 = Returned
  /\ (forall m, landmarker (models (world r.1) m) = in_create input m
                /\ detect (models (world r.1) m) = detect (models w1 m)
                /\ results (models (world r.1) m) = results (models w1 m)
                /\ resultsName (models (world r.1) m) = resultsName (models w1 m))
  /\ webcamDevices (webcamState (world r.1)) = (getWebcamDevices (in_enumerated input) p).1
  /\ (backgroundColor r.1
      = match in_enumerated input with inl _ => backgroundColor p | inr _ => Some "red" end)
  /\ readyState (socketState_ws (world r.1)) = 0
  /\ ws_url r.1 = Some (in_socketURL input)
  /\ loadeddata_listeners r.1 = loadeddata_listeners p
  /\ new_events w1 (world r.1)
     = [ EConsoleLog [in_pose_modelPath input];
         EGetUserMedia {| c_deviceId := webcamId (webcamState w1); c_height_exact := 720;
                          c_frameRate_ideal := 60; c_frameRate_min := 25 |} ].
Proof.
  intros Hq Hall Hacc. cbn zeta.
  pose proof (Hall Hand) as [? ?]. pose proof (Hall Gesture) as [? ?].
  pose proof (Hall FaceLandmark) as [? ?]. pose proof (Hall FaceDetector) as [? ?].
  pose proof (Hall Pose) as [? ?]. pose proof (Hall Object) as [? ?].
  unfold setup, setupWebSocket_call. rewrite Hacc.
  setup_cases configMap input p; cbn [fst snd];
    (split; [done|]); (split; [intros []; simpl; done|]);
    repeat (split; [done|]);
    apply new_events_app; simpl; by rewrite <- ?(assoc_L (++)).
Qed.

(** X14. When the query string has been applied without an exception and
    the creation of any model fails, [setup] ends there with the rejection:
    no connection is opened and no capture is requested, so the page never
    starts its loop; the device list has been stored all the same, and the
    state object of the model that failed keeps the adapter it had. *)
Theorem setup_aborts
    (configMap : gmap string (Value -> World -> World))
    (input : SetupInput) (p : Page) (m : ModelId) :
  (handleQueryParams configMap (in_urlParams input) (world p)).2 = Returned ->
  in_create input m = None ->
  let w1 := (handleQueryParams configMap (in_urlParams input) (world p)).1 in
  let r := setup configMap input p in
  r.2 = Threw "create"
  /\ filter is_capture (new_events w1 (world r.1)) = []
  /\ socketState_ws (world r.1) = socketState_ws w1
  /\ ws_url r.1 = ws_url p
  /\ webcamDevices (webcamState (world r.1)) = (getWebcamDevices (in_enumerated input) p).1
  /\ landmarker (models (world r.1) m) = landmarker (models w1 m).
Proof.
  intros Hq Hm. cbn zeta.
  destruct m; unfold setup, and_then, create, setupWebSocket_call; rewrite Hm;
    setup_cases configMap input p; cbn [fst snd];
    (split; [done|]);
    (split; [first [ by rewrite (new_events_app _ _ []) by (simpl; by rewrite app_nil_r)
                   | by rewrite (new_events_app _ _ [EConsoleLog [in_pose_modelPath input]])
                       by done ]|]);
    by repeat split.
Qed.

(** X18. [setup] also stops before its loop starts in two other ways.  When
    a query parameter makes [handleQueryParams] throw, [setup] ends at once
    with that exception: the page is as the parameters before it left it,
    the cameras are not enumerated and no model is created.  When every
    model loads but the [WebSocket] constructor refuses the address,
    [setup] ends with its SyntaxError: the adapters are in place, but no
    connection is assigned and no capture is requested. *)
Theorem setup_stops_early
    (configMap : gmap string (Value -> World -> World))
    (input : SetupInput) (p : Page) :
  let q := handleQueryParams configMap (in_urlParams input) (world p) in
  let r := setup configMap input p in
  (forall e, q.2 = Threw e ->
             r = (on_world (fun _ => q.1) p, Threw e))
  /\ (q.2 = Returned ->
      (forall m, is_Some (in_create input m)) ->
      in_socket_accepted input = false ->
      r.2 = Threw "SyntaxError"
      /\ (forall m, landmarker (models (world r.1) m) = in_create input m)
      /\ socketState_ws (world r.1) = socketState_ws q.1
      /\ ws_url r.1 = ws_url p
      /\ filter is_capture (new_events q.1 (world r.1)) = []).
Proof.
  cbn zeta. split.
  - intros e He. unfold setup, and_then.
    destruct (handleQueryParams configMap (in_urlParams input) (world p)) as [wq oq].
    simpl in *. by subst.
  - intros Hq Hall Hacc.
    pose proof (Hall Hand) as [? ?]. pose proof (Hall Gesture) as [? ?].
    pose proof (Hall FaceLandmark) as [? ?]. pose proof (Hall FaceDetector) as [? ?].
    pose proof (Hall Pose) as [? ?]. pose proof (Hall Object) as [? ?].
    unfold setup, setupWebSocket_call. rewrite Hacc.
    setup_cases configMap input p; cbn [fst snd];
      (split; [done|]); (split; [intros []; simpl; done|]);
      repeat (split; [done|]);
      by rewrite (new_events_app _ _ [EConsoleLog [in_pose_modelPath input]]) by done.
Qed.

(** ** Frames while the connection is not open *)

Lemma sent_frame_events_closed oracle ams os w :
  is_open w = false -> sent (frame_events oracle ams os w) = [].
Proof.
  intros Ho. unfold frame_events.
  destruct (lastVideoTime (webcamState w) =? currentTime (video w));
    rewrite !sent_app, ?sent_detect_events, !sent_transmit, Ho;
    match goal with
    | |- context [sent (draw_events ?w ?res ?os)] =>
        destruct (draw_events_only_draw w res os) as (_ & _ & -> & _)
    end;
    unfold raf_events; by destruct (webcamRunning (webcamState w)).
Qed.

Lemma run_frames_closed oracles ams os :
  forall w,
    is_open w = false ->
    exists evs,
      trace (run_frames oracles ams os w) = trace w ++ evs
      /\ sent evs = []
      /\ socketState_ws (run_frames oracles ams os w) = socketState_ws w.
Proof.
  induction oracles as [|o rest IH]; intros w Ho; simpl.
  - exists []. by rewrite app_nil_r.
  - assert (H1 : exists evs,
               trace (run_frame o ams os w).1 = trace w ++ evs
               /\ sent evs = []
               /\ socketState_ws (run_frame o ams os w).1 = socketState_ws w).
    { destruct (size_guard w) eqn:Hg.
      - rewrite (run_frame_guarded _ _ _ _ Hg). by eexists.
      - destruct (run_frame_post o ams os w Hg) as (_ & [Hs Htr _ _]).
        destruct Hs as (_ & _ & _ & Hsock & _).
        eexists. split; [exact Htr|]. split; [by apply sent_frame_events_closed|done]. }
    destruct H1 as (evs1 & He1 & Hs1 & Hw1).
    destruct (IH (run_frame o ams os w).1) as (evs & He & Hs & Hw).
    { unfold is_open in *. by rewrite Hw1. }
    exists (evs1 ++ evs). rewrite He, He1, Hw, Hw1, sent_app, Hs1, Hs.
    by rewrite <- (assoc_L (++)).
Qed.

(** X15. While the connection is not open, frames send nothing, however
    many of them run, and they leave the connection as it is: what they
    would have sent is not kept for later.  This is the state
    [setupWebSocket] leaves the page in, the new connection being still
    connecting. *)
Theorem frames_before_open_send_nothing (oracles : list Oracle) (ams : list ModelId)
    (os : ModelId) (w : World) :
  is_open w = false ->
  sent (new_events w (run_frames oracles ams os w)) = []
  /\ socketState_ws (run_frames oracles ams os w) = socketState_ws w
  /\ (forall url p, is_open (world (setupWebSocket url p)) = false).
Proof.
  intros Ho. destruct (run_frames_closed oracles ams os w Ho) as (evs & He & Hs & Hw).
  rewrite (new_events_app _ _ _ He). by repeat split.
Qed.

(** ** What no listener of the page undoes *)

Lemma config_in_own configMap key setter :
  config_in configMap key = Some (OwnOption setter) -> configMap !! key = Some setter.
Proof.
  unfold config_in, Object_prototype. destruct (configMap !! key); [by intros [= ->]|].
  by repeat case_bool_decide.
Qed.

Lemma config_call_webcam (P : WebcamState -> Prop) configMap key pr value w :
  (forall key setter value w,
      configMap !! key = Some setter -> P (webcamState w) ->
      P (webcamState (setter value w))) ->
  config_in configMap key = Some pr ->
  P (webcamState w) ->
  P (webcamState (config_call configMap pr value w).1).
Proof.
  intros Hset Hin Hw. destruct pr as [setter| | |]; simpl; try done.
  - apply config_in_own in Hin. by eapply Hset.
  - destruct (configMap !! "toString") as [setter|] eqn:Hs; [|done]. by eapply Hset.
Qed.

Lemma apply_entries_webcam (P : WebcamState -> Prop) configMap entries :
  (forall key setter value w,
      configMap !! key = Some setter -> P (webcamState w) ->
      P (webcamState (setter value w))) ->
  forall w, P (webcamState w) -> P (webcamState (apply_entries configMap entries w).1).
Proof.
  intros Hset. induction entries as [|[k v] rest IH]; intros w Hw; simpl; [done|].
  destruct (config_in configMap k) as [pr|] eqn:Hk; [|by apply IH].
  destruct (to_string v) as [s|]; [|done].
  pose proof (config_call_webcam P configMap k pr v
                (emit (EConsoleLog [VStr ("Got WS dats: " +:+ k +:+ " : " +:+ s)]) w)
                Hset Hk Hw) as Hc.
  destruct (config_call configMap pr v _) as [w' []]; [by apply IH|done].
Qed.

Lemma onmessage_webcam (P : WebcamState -> Prop) configMap JSON_parse data w :
  (forall key setter value w,
      configMap !! key = Some setter -> P (webcamState w) ->
      P (webcamState (setter value w))) ->
  (forall id w, P (webcamState w) -> P (webcamState (set_webcamId id w))) ->
  P (webcamState w) ->
  P (webcamState (setupWebSocket_onmessage configMap JSON_parse data w).1).
Proof.
  intros Hset Hid Hw. unfold setupWebSocket_onmessage.
  destruct (String.eqb data "ping" || String.eqb data "pong"); [done|].
  destruct (JSON_parse data) as [d|]; [|done].
  destruct (get_prop d "type") as [ty|]; [|done].
  destruct (loose_eq_selectWebcam ty) as [[|]|]; [| |done].
  - destruct (get_prop d "deviceId") as [id|]; [|done].
    destruct (to_string id); [|done]. cbn [fst].
    destruct (checkDeviceIds id _); [|done].
    change (P (webcamState
                 (set_webcamId id (emit (EConsoleLog [VStr "Data received: "; d]) w)))).
    by apply Hid.
  - by apply apply_entries_webcam.
Qed.

Lemma predictWebcam_webcam ams os w :
  webcamRunning (webcamState (predictWebcam ams os w).1) = webcamRunning (webcamState w)
  /\ webcamDevices (webcamState (predictWebcam ams os w).1)
     = webcamDevices (webcamState w)
  /\ webcamId (webcamState (predictWebcam ams os w).1) = webcamId (webcamState w).
Proof.
  destruct (predictWebcam_world ams os w) as (evs & c & o & t & -> & _). done.
Qed.

Lemma log_settings_webcam stream :
  forall w, webcamState (log_settings stream w) = webcamState w.
Proof. induction stream as [|s rest IH]; intros w; simpl; [done|]. by rewrite IH. Qed.


(** X17. The list that [selectWebcam] messages are checked against is the
    one [setup] stored: no listener or continuation of the page writes
    [webcamState.webcamDevices], so that, unless an option setter does, it
    never changes afterwards and a camera connected later cannot be
    selected. *)
Theorem device_list_frozen
    (configMap : gmap string (Value -> World -> World))
    (JSON_parse : string -> option Value) (p p' : Page) :
  keeps_devices configMap ->
  rtc (page_step configMap JSON_parse) p p' ->
  webcamDevices (webcamState (world p')) = webcamDevices (webcamState (world p))
  /\ (forall key,
         checkDeviceIds key (webcamDevices (webcamState (world p))) = false ->
         checkDeviceIds key (webcamDevices (webcamState (world p'))) = false).
Proof.
  intros Hkeep Hsteps.
  assert (H : webcamDevices (webcamState (world p'))
              = webcamDevices (webcamState (world p))).
  { induction Hsteps as [p|p q r Hstep _ IH]; [done|]. rewrite IH.
    destruct Hstep; simpl; try done.
    - by destruct (predictWebcam_webcam allModelState Object (world p)) as (_ & -> & _).
    - by destruct (resume_keeps s r0 (world p)) as [-> _].
    - apply (onmessage_webcam
               (fun s => webcamDevices s = webcamDevices (webcamState (world p))));
        try done.
      intros key setter value w Hk Hw. rewrite <- Hw. by eapply Hkeep.
    - destruct enumerated; done.
    - by rewrite log_settings_webcam. }
  split; [done|]. intros key. by rewrite H.
Qed.

(** ** The further properties on the concrete session *)


Lemma example_keeps_devices : keeps_devices example_configMap.
Proof.
  intros key setter value w Hk. unfold example_configMap in Hk.
  by apply lookup_singleton_Some in Hk as [_ <-].
Qed.

Lemma example_option_known : is_Some (example_configMap !! "Showoverlays").
Proof. unfold example_configMap. rewrite lookup_singleton_eq. by eexists. Qed.

Lemma listed_device_selectable_witness :
  webcamId (webcamState
              (setupWebSocket_onmessage example_configMap example_parse "select"
                 example_world).1)
  = VStr "cam1".
Proof.
  refine (proj1 (proj2 (listed_device_selectable example_configMap example_parse
                          (inl example_enumerated) example_page
                          {| deviceId := "cam1"; label := "Front camera" |}
                          "select" example_select example_world _ _ _ _ _ _ _)));
    [ reflexivity | apply list_elem_of_here | discriminate | discriminate
    | reflexivity .. ].
Defined.

Lemma inert_messages_witness :
  set_trace (trace example_world)
    (setupWebSocket_onmessage example_configMap example_parse "ping" example_world).1
  = example_world.
Proof.
  apply (inert_messages example_configMap example_parse "ping" example_world).
  left. reflexivity.
Defined.

Lemma select_ignores_config_witness :
  setupWebSocket_onmessage example_configMap example_parse "select" example_world
  = setupWebSocket_onmessage ∅ example_parse "select" example_world.
Proof.
  apply (select_ignores_config example_configMap ∅ example_parse "select"
           example_select (VStr "selectWebcam") example_world); reflexivity.
Defined.

Lemma patch_stops_at_throw_witness :
  apply_entries example_configMap
    ([] ++ ("Showoverlays", VObj [("toString", VNum 1)]) :: [("Showoverlays", VNum 1)])
    example_world
  = ((apply_entries example_configMap [] example_world).1, Threw "TypeError").
Proof.
  apply (patch_stops_at_throw example_configMap [] [("Showoverlays", VNum 1)]
           "Showoverlays" (VObj [("toString", VNum 1)]) example_world);
    [exact example_option_known | reflexivity | reflexivity].
Defined.

Lemma overlay_only_gates_drawing_witness :
  size_guard example_world = false
  /\ filter is_draw
       (new_events (set_overlayState_show false example_world)
          (run_frame example_oracle allModelState Object
             (set_overlayState_show false example_world)).1) = [].
Proof.
  split; [reflexivity|].
  refine (proj2 (proj2 (overlay_only_gates_drawing false example_oracle allModelState
                          Object example_world _)) eq_refl).
  reflexivity.
Defined.

Lemma setup_completes_witness :
  (handleQueryParams example_configMap (in_urlParams example_input)
     (world example_page)).2 = Returned
  /\ (forall m, is_Some (in_create example_input m))
  /\ in_socket_accepted example_input = true
  /\ (setup example_configMap example_input example_page).2 = Returned.
Proof.
  assert (Hq : (handleQueryParams example_configMap (in_urlParams example_input)
                  (world example_page)).2 = Returned) by (vm_compute; reflexivity).
  assert (Hall : forall m, is_Some (in_create example_input m))
    by (intros m; eexists; reflexivity).
  split; [exact Hq|]. split; [exact Hall|]. split; [reflexivity|].
  exact (proj1 (setup_completes example_configMap example_input example_page
                  Hq Hall eq_refl)).
Defined.

Lemma setup_aborts_witness :
  (handleQueryParams example_configMap (in_urlParams failing_input)
     (world example_page)).2 = Returned
  /\ in_create failing_input Pose = None
  /\ (setup example_configMap failing_input example_page).2 = Threw "create".
Proof.
  assert (Hq : (handleQueryParams example_configMap (in_urlParams failing_input)
                  (world example_page)).2 = Returned) by (vm_compute; reflexivity).
  split; [exact Hq|]. split; [reflexivity|].
  exact (proj1 (setup_aborts example_configMap failing_input example_page Pose
                  Hq eq_refl)).
Defined.

Lemma setup_stops_early_witness :
  (handleQueryParams example_configMap (in_urlParams poisoned_input)
     (world example_page)).2 = Threw "TypeError"
  /\ (setup example_configMap poisoned_input example_page).2 = Threw "TypeError"
  /\ in_socket_accepted refused_input = false
  /\ (setup example_configMap refused_input example_page).2 = Threw "SyntaxError".
Proof.
  assert (Hq : (handleQueryParams example_configMap (in_urlParams poisoned_input)
                  (world example_page)).2 = Threw "TypeError")
    by (vm_compute; reflexivity).
  assert (Hr : (handleQueryParams example_configMap (in_urlParams refused_input)
                  (world example_page)).2 = Returned) by (vm_compute; reflexivity).
  assert (Hall : forall m, is_Some (in_create refused_input m))
    by (intros m; eexists; reflexivity).
  split; [exact Hq|].
  split; [exact (f_equal snd
                   (proj1 (setup_stops_early example_configMap poisoned_input
                             example_page) "TypeError" Hq))|].
  split; [reflexivity|].
  exact (proj1 (proj2 (setup_stops_early example_configMap refused_input example_page)
                  Hr Hall eq_refl)).
Defined.

Lemma frames_before_open_send_nothing_witness :
  is_open connecting_world = false
  /\ sent (new_events connecting_world
             (run_frames [example_oracle; example_oracle] allModelState Object
                connecting_world)) = [].
Proof.
  split; [reflexivity|].
  apply (frames_before_open_send_nothing [example_oracle; example_oracle]
           allModelState Object connecting_world).
  reflexivity.
Defined.


Lemma device_list_frozen_witness :
  webcamDevices (webcamState (world (enableCam_granted [] example_page)))
  = webcamDevices (webcamState (world example_page)).
Proof.
  apply (device_list_frozen example_configMap example_parse example_page
           (enableCam_granted [] example_page) example_keeps_devices).
  apply rtc_once. apply step_granted.
Defined.

(** While the first frame, started at video time 0, still waits for its
    first detection call, a second invocation processes video time 1; an
    invocation that then sees video time 0 again dispatches detection:
    [lastVideoTime] no longer holds the time of the first frame. *)
Lemma reentrant_same_time_dispatches :
  (exists s, (predictWebcam allModelState Object example_world).2 = Some s
             /\ s_pending s = Hand)
  /\ currentTime (video overtaken_world) = currentTime (video example_world)
  /\ lastVideoTime (webcamState overtaken_world) = 1
  /\ filter is_detect
       (new_events overtaken_world
          (predictWebcam allModelState Object overtaken_world).1)
     = [EDetect Hand 7%nat detectForVideo 50]
  /\ (exists s, (predictWebcam allModelState Object overtaken_world).2 = Some s).
Proof.
  split; [eexists; split; reflexivity|].
  split; [reflexivity|]. split; [reflexivity|].
  split; [vm_compute; reflexivity|]. eexists. reflexivity.
Qed.
